(** * Ledger-driven inventory service (src/app.py): shallow embedding

    The SQLite database of [app.py] is modelled as a record of four tables,
    each a list in insertion (rowid) order.  Generated UUIDs are modelled by a
    counter [next_id] that hands out fresh identifiers.

    Quantities (REAL columns, [float] request fields) are modelled twice.
    The integer model ([db], [step], [run]) keeps them as exact integers
    [Z]; it is used for the properties that do not depend on rounding.  The
    binary64 model ([f_db], [f_step], [f_run]) keeps them as IEEE doubles
    (Stdlib's [SpecFloat] with 53-bit precision, round to nearest even),
    with SQLite's [SUM] (plain or compensated) and Python's [sum] (plain or
    compensated) as parameters of a [platform].  For requests carrying
    whole quantities below [2^53] the two models agree ([f_run_emb]).
    Every endpoint returns its response (or its error code) together with the
    database state committed after it: on an error path the transaction is
    rolled back (or nothing was written), so the returned state is the
    input state. *)

From Stdlib Require Import List String ZArith Lia Bool Sorted SpecFloat Permutation.
Import ListNotations.
Open Scope Z_scope.

(** ** Tables *)

Record item := mkItem {
  item_id : nat;
  item_code : string;
  item_name : string;
  item_qc_required : bool
}.

Inductive qc_status := APPROVED | QUARANTINE | REJECTED.

Definition qc_status_eqb (a b : qc_status) : bool :=
  match a, b with
  | APPROVED, APPROVED | QUARANTINE, QUARANTINE | REJECTED, REJECTED => true
  | _, _ => false
  end.

Record lot := mkLot {
  lot_id : nat;
  lot_item_id : nat;
  lot_code : string;
  received_qty : Z;
  lot_qc_status : qc_status
}.

Inductive txn_type := RECEIVE | RESERVE | UNRESERVE | ISSUE.

Definition txn_type_eqb (a b : txn_type) : bool :=
  match a, b with
  | RECEIVE, RECEIVE | RESERVE, RESERVE | UNRESERVE, UNRESERVE
  | ISSUE, ISSUE => true
  | _, _ => false
  end.

Record ledger_entry := mkEntry {
  led_id : nat;
  led_item_id : nat;
  led_lot_id : option nat;
  led_txn_type : txn_type;
  led_qty : Z;
  led_reservation_id : option nat
}.

Inductive reservation_status := OPEN | ISSUED | CANCELLED.

Definition res_status_eqb (a b : reservation_status) : bool :=
  match a, b with
  | OPEN, OPEN | ISSUED, ISSUED | CANCELLED, CANCELLED => true
  | _, _ => false
  end.

Record reservation := mkReservation {
  res_id : nat;
  res_item_id : nat;
  res_qty : Z;
  res_status : reservation_status
}.

Record db := mkDb {
  items : list item;
  inventory_lots : list lot;
  inventory_ledger : list ledger_entry;
  reservations : list reservation;
  next_id : nat
}.

(** [init_db]: the freshly created, empty schema. *)
Definition init_db : db := mkDb [] [] [] [] 0.

(** Error codes ([class ErrorCode]), plus the codes written inline in
    [app.py] and the request-validation failure of pydantic (HTTP 422). *)
Inductive error_code :=
  | INSUFFICIENT_STOCK | NO_QC_APPROVED_LOT | RESERVATION_NOT_FOUND
  | ITEM_NOT_FOUND | DUPLICATE_LOT_CODE | INVALID_QTY
  | RESERVATION_ALREADY_ISSUED | LOT_NOT_APPROVED
  | DUPLICATE_ITEM_CODE | LOT_NOT_FOUND | REQUEST_VALIDATION_ERROR.

Inductive result (A : Type) :=
  | Ok (a : A)
  | Err (e : error_code).
Arguments Ok {A} a.
Arguments Err {A} e.

(** ** Helpers *)

Definition sumZ (l : list Z) : Z := fold_right Z.add 0 l.

(** [get_item]: [SELECT * FROM items WHERE id = ?]. *)
Definition get_item (s : db) (iid : nat) : option item :=
  find (fun it => Nat.eqb (item_id it) iid) (items s).

Record stock_summary := mkSummary {
  on_hand : Z;
  reserved : Z;
  available : Z
}.

(** [calculate_stock]: sums over the ledger and the OPEN reservations. *)
Definition entry_qty (t : txn_type) (iid : nat) (e : ledger_entry) : Z :=
  if Nat.eqb (led_item_id e) iid && txn_type_eqb (led_txn_type e) t
  then led_qty e else 0.

Definition ledger_sum (t : txn_type) (s : db) (iid : nat) : Z :=
  sumZ (map (entry_qty t iid) (inventory_ledger s)).

Definition open_reserved (rs : list reservation) (iid : nat) : Z :=
  sumZ (map (fun r => if Nat.eqb (res_item_id r) iid && res_status_eqb (res_status r) OPEN
                      then res_qty r else 0) rs).

Definition calculate_stock (s : db) (iid : nat) : stock_summary :=
  let received := ledger_sum RECEIVE s iid in
  let issued := ledger_sum ISSUE s iid in
  let oh := received - issued in
  let rsv := open_reserved (reservations s) iid in
  mkSummary oh rsv (oh - rsv).

(** A row of the [get_available_lots] query. *)
Record avail_lot := mkAvail {
  al_lot : lot;
  al_issued_qty : Z;
  al_available : Z
}.

(** [COALESCE(SUM(CASE WHEN led.txn_type = 'ISSUE' THEN led.qty ELSE 0 END), 0)]
    over the ledger rows joined on [l.id = led.lot_id]. *)
Definition lot_issued_qty (s : db) (lid : nat) : Z :=
  sumZ (map (fun e =>
    match led_lot_id e with
    | Some x => if Nat.eqb x lid && txn_type_eqb (led_txn_type e) ISSUE
                then led_qty e else 0
    | None => 0
    end) (inventory_ledger s)).

(** [ORDER BY l.lot_code ASC]: SQLite's BINARY collation compares the codes
    byte by byte, a shorter prefix first, which is [String.compare]. *)
Fixpoint insert_by_code (x : avail_lot) (l : list avail_lot) : list avail_lot :=
  match l with
  | [] => [x]
  | y :: rest =>
      if String.leb (lot_code (al_lot x)) (lot_code (al_lot y))
      then x :: y :: rest
      else y :: insert_by_code x rest
  end.

Fixpoint sort_by_code (l : list avail_lot) : list avail_lot :=
  match l with
  | [] => []
  | x :: rest => insert_by_code x (sort_by_code rest)
  end.

(** [get_available_lots]: APPROVED lots of the item with
    [received_qty - issued_qty > 0], ordered by lot code. *)
Definition get_available_lots (s : db) (iid : nat) : list avail_lot :=
  let rows := filter (fun l => Nat.eqb (lot_item_id l) iid
                               && qc_status_eqb (lot_qc_status l) APPROVED)
                     (inventory_lots s) in
  let grouped := map (fun l => let iss := lot_issued_qty s (lot_id l) in
                               mkAvail l iss (received_qty l - iss)) rows in
  sort_by_code (filter (fun a => 0 <? received_qty (al_lot a) - al_issued_qty a) grouped).

(** ** Endpoints *)

(** [create_item]: the UNIQUE constraint on [items.code] raises an
    IntegrityError, reported as DUPLICATE_ITEM_CODE. *)
Definition create_item (s : db) (code name : string) (qc_required : bool)
  : result item * db :=
  let iid := next_id s in
  if existsb (fun it => String.eqb (item_code it) code) (items s)
  then (Err DUPLICATE_ITEM_CODE, s)
  else let it := mkItem iid code name qc_required in
       (Ok it, mkDb (items s ++ [it]) (inventory_lots s) (inventory_ledger s)
                    (reservations s) (S iid)).

(** [receive_inventory]: [qty: float = Field(gt=0)] is checked by pydantic;
    the lot and its RECEIVE entry are inserted in one transaction, and the
    UNIQUE constraint on [inventory_lots.lot_code] (global, over all items)
    makes the lot insert fail, the transaction roll back, and the request
    fail with DUPLICATE_LOT_CODE. *)
Definition receive_inventory (s : db) (iid : nat) (code : string) (qty : Z)
  : result lot * db :=
  if qty <=? 0 then (Err REQUEST_VALIDATION_ERROR, s) else
  match get_item s iid with
  | None => (Err ITEM_NOT_FOUND, s)
  | Some it =>
      let st := if item_qc_required it then QUARANTINE else APPROVED in
      let lid := next_id s in
      let ledger_id := S lid in
      if existsb (fun l => String.eqb (lot_code l) code) (inventory_lots s)
      then (Err DUPLICATE_LOT_CODE, s)
      else
        let l := mkLot lid iid code qty st in
        let e := mkEntry ledger_id iid (Some lid) RECEIVE qty None in
        (Ok l, mkDb (items s) (inventory_lots s ++ [l])
                    (inventory_ledger s ++ [e]) (reservations s) (S ledger_id))
  end.

(** [get_stock_summary]. *)
Definition get_stock_summary (s : db) (iid : nat) : result stock_summary :=
  match get_item s iid with
  | None => Err ITEM_NOT_FOUND
  | Some _ => Ok (calculate_stock s iid)
  end.

(** [reserve_inventory]: available-stock check, then the check that some
    QC-approved lot with stock exists, then the reservation row and its
    RESERVE ledger entry.  The response is the new reservation id. *)
Definition reserve_inventory (s : db) (iid : nat) (qty : Z) : result nat * db :=
  if qty <=? 0 then (Err REQUEST_VALIDATION_ERROR, s) else
  match get_item s iid with
  | None => (Err ITEM_NOT_FOUND, s)
  | Some _ =>
      let summary := calculate_stock s iid in
      if available summary <? qty then (Err INSUFFICIENT_STOCK, s) else
      match get_available_lots s iid with
      | [] => (Err NO_QC_APPROVED_LOT, s)
      | _ :: _ =>
          let rid := next_id s in
          let ledger_id := S rid in
          (Ok rid, mkDb (items s) (inventory_lots s)
                        (inventory_ledger s ++
                           [mkEntry ledger_id iid None RESERVE qty (Some rid)])
                        (reservations s ++ [mkReservation rid iid qty OPEN])
                        (S ledger_id))
      end
  end.

(** The FIFO loop of [issue_inventory]:
    [for lot in lots: if remaining_qty <= 0: break;
     qty_from_lot = min(lot['available'], remaining_qty); ...;
     remaining_qty -= qty_from_lot]. *)
Fixpoint issue_loop (lots : list avail_lot) (remaining_qty : Z)
  : list (avail_lot * Z) :=
  match lots with
  | [] => []
  | l :: rest =>
      if remaining_qty <=? 0 then []
      else let qty_from_lot := Z.min (al_available l) remaining_qty in
           (l, qty_from_lot) :: issue_loop rest (remaining_qty - qty_from_lot)
  end.

(** The ISSUE ledger entries written by the loop, with fresh ids from [n]. *)
Fixpoint issue_entries (n iid rid : nat) (allocs : list (avail_lot * Z))
  : list ledger_entry :=
  match allocs with
  | [] => []
  | (l, q) :: rest =>
      mkEntry n iid (Some (lot_id (al_lot l))) ISSUE q (Some rid)
        :: issue_entries (S n) iid rid rest
  end.

Record issued_line := mkLine {
  il_lot_id : nat;
  il_lot_code : string;
  il_qty : Z
}.

Record issue_response := mkIssueResponse {
  ir_reservation_id : nat;
  ir_item_id : nat;
  ir_qty : Z;
  lots_issued : list issued_line
}.

Definition line_of (a : avail_lot * Z) : issued_line :=
  mkLine (lot_id (al_lot (fst a))) (lot_code (al_lot (fst a))) (snd a).

(** [UPDATE reservations SET status = 'ISSUED' WHERE id = ?]. *)
Definition set_issued (rid : nat) (rs : list reservation) : list reservation :=
  map (fun r => if Nat.eqb (res_id r) rid
                then mkReservation (res_id r) (res_item_id r) (res_qty r) ISSUED
                else r) rs.

Definition find_reservation (s : db) (rid : nat) : option reservation :=
  find (fun r => Nat.eqb (res_id r) rid) (reservations s).

(** [issue_inventory]. *)
Definition issue_inventory (s : db) (rid : nat) : result issue_response * db :=
  match find_reservation s rid with
  | None => (Err RESERVATION_NOT_FOUND, s)
  | Some r =>
      if negb (res_status_eqb (res_status r) OPEN)
      then (Err RESERVATION_ALREADY_ISSUED, s) else
      let iid := res_item_id r in
      let qty_to_issue := res_qty r in
      match get_available_lots s iid with
      | [] => (Err NO_QC_APPROVED_LOT, s)
      | lots =>
          let total_available := sumZ (map al_available lots) in
          if total_available <? qty_to_issue then (Err INSUFFICIENT_STOCK, s) else
          let allocs := issue_loop lots qty_to_issue in
          let n0 := next_id s in
          let n1 := (n0 + List.length allocs)%nat in
          let unres := mkEntry n1 iid None UNRESERVE qty_to_issue (Some rid) in
          (Ok (mkIssueResponse rid iid qty_to_issue (map line_of allocs)),
           mkDb (items s) (inventory_lots s)
                (inventory_ledger s ++ issue_entries n0 iid rid allocs ++ [unres])
                (set_issued rid (reservations s)) (S n1))
      end
  end.

(** [UPDATE inventory_lots SET qc_status = ? WHERE id = ?]. *)
Definition set_lot_qc_status (lid : nat) (st : qc_status) (ls : list lot) : list lot :=
  map (fun l => if Nat.eqb (lot_id l) lid
                then mkLot (lot_id l) (lot_item_id l) (lot_code l) (received_qty l) st
                else l) ls.

(** [update_lot_qc_status]: [qc_status: Literal["APPROVED", "REJECTED"]] is
    checked by pydantic; the new status is written whatever the current
    one is. *)
Definition update_lot_qc_status (s : db) (lid : nat) (st : qc_status)
  : result (nat * qc_status) * db :=
  if qc_status_eqb st QUARANTINE then (Err REQUEST_VALIDATION_ERROR, s) else
  match find (fun l => Nat.eqb (lot_id l) lid) (inventory_lots s) with
  | None => (Err LOT_NOT_FOUND, s)
  | Some _ =>
      (Ok (lid, st),
       mkDb (items s) (set_lot_qc_status lid st (inventory_lots s))
            (inventory_ledger s) (reservations s) (next_id s))
  end.

(** ** Requests and reachable states *)

Inductive request :=
  | ReqCreateItem (code name : string) (qc_required : bool)
  | ReqReceive (iid : nat) (code : string) (qty : Z)
  | ReqReserve (iid : nat) (qty : Z)
  | ReqIssue (rid : nat)
  | ReqQc (lid : nat) (st : qc_status).

(** The state committed after serving one request (each request runs in one
    transaction, so requests are serialised). *)
Definition step (s : db) (q : request) : db :=
  match q with
  | ReqCreateItem c n b => snd (create_item s c n b)
  | ReqReceive i c x => snd (receive_inventory s i c x)
  | ReqReserve i x => snd (reserve_inventory s i x)
  | ReqIssue r => snd (issue_inventory s r)
  | ReqQc l st => snd (update_lot_qc_status s l st)
  end.

Definition run (s : db) (qs : list request) : db := fold_left step qs s.

Inductive reachable : db -> Prop :=
  | reach_init : reachable init_db
  | reach_step s q : reachable s -> reachable (step s q).

(** Status of a lot as read by [SELECT * FROM inventory_lots WHERE id = ?]. *)
Definition lot_status_of (s : db) (lid : nat) : option qc_status :=
  option_map lot_qc_status (find (fun l => Nat.eqb (lot_id l) lid) (inventory_lots s)).

(** [x] occurs strictly before [y] in [l]. *)
Definition precedes {A : Type} (x y : A) (l : list A) : Prop :=
  exists l1 l2 l3, l = l1 ++ x :: l2 ++ y :: l3.

Definition code_le (a b : avail_lot) : Prop :=
  String.leb (lot_code (al_lot a)) (lot_code (al_lot b)) = true.

(** ** Scenarios of the test suite (item ids, lot ids and reservation ids
    are the fresh identifiers handed out in order). *)

(** Item 0 without QC; receive 100 into LOT-001 (lot 1); reserve 30
    (reservation 3). *)
Definition scenario_summary : db :=
  run init_db [ReqCreateItem "ITEM-1" "Widget" false;
               ReqReceive 0 "LOT-001" 100; ReqReserve 0 30].

(** Item 0 without QC; LOT-B received before LOT-A. *)
Definition scenario_code_order : db :=
  run init_db [ReqCreateItem "ITEM-1" "Widget" false;
               ReqReceive 0 "LOT-B" 10; ReqReceive 0 "LOT-A" 10].

(** Item 0 with QC; receive 50 into LOT-QC-001 (lot 1). *)
Definition scenario_qc : db :=
  run init_db [ReqCreateItem "ITEM-QC" "QC Widget" true;
               ReqReceive 0 "LOT-QC-001" 50].

(** Item 0 with QC; lot 1 (50) approved, lot 3 (100) still quarantined. *)
Definition scenario_mixed_qc : db :=
  run init_db [ReqCreateItem "ITEM-QC" "QC Widget" true;
               ReqReceive 0 "LOT-1" 50; ReqReceive 0 "LOT-2" 100;
               ReqQc 1 APPROVED].

(** Item 0 with QC; lot 1 (10) approved, reserved and fully issued; lot 3
    (50) still quarantined. *)
Definition scenario_exhausted : db :=
  run init_db [ReqCreateItem "ITEM-QC" "QC Widget" true;
               ReqReceive 0 "LOT-1" 10; ReqReceive 0 "LOT-2" 50;
               ReqQc 1 APPROVED; ReqReserve 0 10; ReqIssue 5].

(** Item 0 without QC; its only lot (10) reserved and fully issued. *)
Definition scenario_exhausted_only : db :=
  run init_db [ReqCreateItem "ITEM-1" "Widget" false;
               ReqReceive 0 "LOT-1" 10; ReqReserve 0 10; ReqIssue 3].

(** Two items; LOT-DUP-001 received into item 0 (lot 2). *)
Definition scenario_dup : db :=
  run init_db [ReqCreateItem "ITEM-1" "Widget" false;
               ReqCreateItem "ITEM-2" "Gadget" true;
               ReqReceive 0 "LOT-DUP-001" 10].

(** ** Well-formed states

    What the schema and the endpoints keep true of the tables: identifiers
    are below the counter (they were handed out by it), primary keys and the
    UNIQUE codes are distinct, and stored quantities are positive. *)

Definition lot_below (n : nat) (l : lot) : Prop :=
  (lot_id l < n)%nat /\ (lot_item_id l < n)%nat.

Definition entry_below (n : nat) (e : ledger_entry) : Prop :=
  (led_item_id e < n)%nat /\ (forall x, led_lot_id e = Some x -> (x < n)%nat).

Definition res_below (n : nat) (r : reservation) : Prop :=
  (res_id r < n)%nat /\ (res_item_id r < n)%nat.

Record db_wf (s : db) : Prop := {
  wf_item_ids : Forall (fun it => (item_id it < next_id s)%nat) (items s);
  wf_lot_ids : Forall (lot_below (next_id s)) (inventory_lots s);
  wf_ledger_refs : Forall (entry_below (next_id s)) (inventory_ledger s);
  wf_res_ids : Forall (res_below (next_id s)) (reservations s);
  wf_item_nodup : NoDup (map item_id (items s));
  wf_lot_nodup : NoDup (map lot_id (inventory_lots s));
  wf_res_nodup : NoDup (map res_id (reservations s));
  wf_item_codes : NoDup (map item_code (items s));
  wf_lot_codes : NoDup (map lot_code (inventory_lots s));
  wf_lot_qty : Forall (fun l => 0 < received_qty l) (inventory_lots s);
  wf_ledger_qty : Forall (fun e => 0 < led_qty e) (inventory_ledger s)
}.


(** The RESERVE and UNRESERVE entries of the ledger balance to the quantity
    held by the OPEN reservations. *)
Definition reserve_balance (s : db) : Prop :=
  forall i, ledger_sum RESERVE s i - ledger_sum UNRESERVE s i = open_reserved (reservations s) i.


(** ** [verify_logic.py]

    The stand-alone script re-implements the endpoints over the same schema;
    its [calculate_stock] runs the same two queries as [app.py]'s, and its
    [issue_inventory] runs the same lot query, so both are the definitions
    above.  Errors are raised as [ValueError]s whose message starts with the
    error code; nothing is written before a raise. *)

(** [reserve_inventory] of [verify_logic.py]: no request validation and no
    item lookup; the lot check counts the APPROVED lots of the item,
    whatever stock they have left. *)
Definition vl_reserve_inventory (s : db) (iid : nat) (qty : Z) : result nat * db :=
  let summary := calculate_stock s iid in
  if available summary <? qty then (Err INSUFFICIENT_STOCK, s) else
  let count := List.length (filter (fun l => Nat.eqb (lot_item_id l) iid
                                             && qc_status_eqb (lot_qc_status l) APPROVED)
                                   (inventory_lots s)) in
  if Nat.eqb count 0 then (Err NO_QC_APPROVED_LOT, s) else
  let rid := next_id s in
  let ledger_id := S rid in
  (Ok rid, mkDb (items s) (inventory_lots s)
                (inventory_ledger s ++ [mkEntry ledger_id iid None RESERVE qty (Some rid)])
                (reservations s ++ [mkReservation rid iid qty OPEN])
                (S ledger_id)).

(** [issue_inventory] of [verify_logic.py]: the returned lines carry the lot
    code and quantity only. *)
Definition vl_issue_inventory (s : db) (rid : nat) : result (list (string * Z)) * db :=
  match find_reservation s rid with
  | None => (Err RESERVATION_NOT_FOUND, s)
  | Some r =>
      if negb (res_status_eqb (res_status r) OPEN)
      then (Err RESERVATION_ALREADY_ISSUED, s) else
      let iid := res_item_id r in
      let qty_to_issue := res_qty r in
      let lots := get_available_lots s iid in
      match lots with
      | [] => (Err NO_QC_APPROVED_LOT, s)
      | _ :: _ =>
          let total_available := sumZ (map al_available lots) in
          if total_available <? qty_to_issue then (Err INSUFFICIENT_STOCK, s) else
          let allocs := issue_loop lots qty_to_issue in
          let n0 := next_id s in
          let n1 := (n0 + List.length allocs)%nat in
          (Ok (map (fun a => (lot_code (al_lot (fst a)), snd a)) allocs),
           mkDb (items s) (inventory_lots s)
                (inventory_ledger s ++ issue_entries n0 iid rid allocs
                   ++ [mkEntry n1 iid None UNRESERVE qty_to_issue (Some rid)])
                (set_issued rid (reservations s)) (S n1))
      end
  end.

(** ** The binary64 embedding

    The quantities of [app.py] are Python floats and SQLite REAL values:
    IEEE 754 binary64 numbers, added and subtracted with rounding to
    nearest, ties to even, overflowing to infinities.  The model below
    replays the endpoints over [SpecFloat] of the Standard Library
    (precision 53, maximal exponent 1024).  The SQL aggregates and
    Python's [sum] are computed element by element in the order the rows
    are read, with the summation algorithm of the platform. *)

Definition float := spec_float.
Definition fadd (x y : float) : float := SFadd 53 1024 x y.
Definition fsub (x y : float) : float := SFsub 53 1024 x y.
Definition fltb (x y : float) : bool := SFltb x y.
Definition fleb (x y : float) : bool := SFleb x y.
Definition f0 : float := S754_zero false.

(** [m * 2^e] rounded to binary64. *)
Definition fbin (m e : Z) : float := binary_normalize 53 1024 m e false.

(** An integer as a float ([float(n)]). *)
Definition float_of_Z (n : Z) : float := fbin n 0.

Definition f_is_nan (x : float) : bool :=
  match x with S754_nan => true | _ => false end.

Definition f_is_finite (x : float) : bool :=
  match x with S754_zero _ | S754_finite _ _ _ => true | _ => false end.

Definition f_is_zero (x : float) : bool :=
  match x with S754_zero _ => true | _ => false end.

(** The 53-bit mantissa of a positive integer of at most 53 bits. *)
Definition norm53 (p : positive) : positive :=
  match (53 - Zpos (Pos.size p))%Z with
  | Zpos d => Pos.iter xO p d
  | _ => p
  end.

(** How [SUM()] of SQLite and the built-in [sum] of Python add floats:
    [Plain] running addition (SQLite before 3.43, Python before 3.12), or
    [Compensated] summation (Kahan-Babuska-Neumaier in SQLite 3.43+,
    Neumaier in Python 3.12+). *)
Inductive sum_algo := Plain | Compensated.

Record platform := mkPlatform {
  sqlite_sum : sum_algo;
  python_sum : sum_algo
}.

(** [kahanBabuskaNeumaierStep] of SQLite's [func.c]. *)
Definition kbn_step (acc : float * float) (r : float) : float * float :=
  let '(s, err) := acc in
  let t := fadd s r in
  if fltb (SFabs r) (SFabs s)
  then (t, fadd err (fadd (fsub s t) r))
  else (t, fadd err (fadd (fsub r t) s)).

(** [COALESCE(SUM(x), 0)] over non-NULL REAL values: the empty sum is the
    integer 0 of [COALESCE]; in the compensated sum the error term is added
    unless it overflowed; a NaN result is returned as NULL, so [COALESCE]
    makes it 0.  The integer 0 of [CASE ... ELSE 0] adds as [0.0]. *)
Definition sql_sum (a : sum_algo) (xs : list float) : float :=
  let r := match a with
           | Plain => fold_left fadd xs f0
           | Compensated =>
               let '(s, err) := fold_left kbn_step xs (f0, f0) in
               if f_is_finite err then fadd s err else s
           end in
  if f_is_nan r then f0 else r.

(** The float loop of [builtin_sum_impl] in CPython 3.12+. *)
Definition neumaier_step (acc : float * float) (x : float) : float * float :=
  let '(f, c) := acc in
  let t := fadd f x in
  if fleb (SFabs x) (SFabs f)
  then (t, fadd c (fadd (fsub f t) x))
  else (t, fadd c (fadd (fsub x t) f)).

(** [sum(xs)] of floats: the start value [0] plus the first float gives the
    float accumulator, the other floats are added in order; the
    compensation is added at the end if it is non-zero and finite. *)
Definition py_sum (a : sum_algo) (xs : list float) : float :=
  match xs with
  | [] => f0
  | x :: rest =>
      let first := fadd f0 x in
      match a with
      | Plain => fold_left fadd rest first
      | Compensated =>
          let '(f, c) := fold_left neumaier_step rest (first, f0) in
          if negb (f_is_zero c) && f_is_finite c then fadd f c else f
      end
  end.

(** [min(a, b)]: [b] only if [b < a]. *)
Definition py_min (a b : float) : float := if fltb b a then b else a.

(** *** Tables with float quantities *)

Record f_lot := mkFLot {
  fl_id : nat;
  fl_item_id : nat;
  fl_code : string;
  fl_received_qty : float;
  fl_qc_status : qc_status
}.

Record f_entry := mkFEntry {
  fe_id : nat;
  fe_item_id : nat;
  fe_lot_id : option nat;
  fe_txn_type : txn_type;
  fe_qty : float;
  fe_reservation_id : option nat
}.

Record f_reservation := mkFReservation {
  fr_id : nat;
  fr_item_id : nat;
  fr_qty : float;
  fr_status : reservation_status
}.

Record f_db := mkFDb {
  f_items : list item;
  f_lots : list f_lot;
  f_ledger : list f_entry;
  f_reservations : list f_reservation;
  f_next_id : nat
}.

Definition f_init_db : f_db := mkFDb [] [] [] [] 0.

Definition f_get_item (s : f_db) (iid : nat) : option item :=
  find (fun it => Nat.eqb (item_id it) iid) (f_items s).

Record f_summary := mkFSummary {
  f_on_hand : float;
  f_reserved : float;
  f_available : float
}.

(** [CASE WHEN txn_type = t THEN qty ELSE 0 END]. *)
Definition f_case (t : txn_type) (e : f_entry) : float :=
  if txn_type_eqb (fe_txn_type e) t then fe_qty e else f0.

(** [... FROM inventory_ledger WHERE item_id = ?]: the index on [item_id]
    yields the rows in rowid (insertion) order. *)
Definition f_item_rows (s : f_db) (iid : nat) : list f_entry :=
  filter (fun e => Nat.eqb (fe_item_id e) iid) (f_ledger s).

(** [... FROM reservations WHERE item_id = ? AND status = 'OPEN']. *)
Definition f_open_rows (s : f_db) (iid : nat) : list f_reservation :=
  filter (fun r => Nat.eqb (fr_item_id r) iid && res_status_eqb (fr_status r) OPEN)
         (f_reservations s).

(** [calculate_stock]. *)
Definition f_calculate_stock (p : platform) (s : f_db) (iid : nat) : f_summary :=
  let received := sql_sum (sqlite_sum p) (map (f_case RECEIVE) (f_item_rows s iid)) in
  let issued := sql_sum (sqlite_sum p) (map (f_case ISSUE) (f_item_rows s iid)) in
  let oh := fsub received issued in
  let rsv := sql_sum (sqlite_sum p) (map fr_qty (f_open_rows s iid)) in
  mkFSummary oh rsv (fsub oh rsv).

Record f_avail_lot := mkFAvail {
  fa_lot : f_lot;
  fa_issued_qty : float;
  fa_available : float
}.

(** The ledger rows joined to lot [lid] ([led.lot_id = l.id], read through
    the index on [lot_id], in rowid order), summed with the ISSUE case. *)
Definition f_lot_issued_qty (p : platform) (s : f_db) (lid : nat) : float :=
  sql_sum (sqlite_sum p)
    (map (f_case ISSUE)
       (filter (fun e => match fe_lot_id e with
                         | Some x => Nat.eqb x lid
                         | None => false
                         end) (f_ledger s))).

Fixpoint f_insert_by_code (x : f_avail_lot) (l : list f_avail_lot) : list f_avail_lot :=
  match l with
  | [] => [x]
  | y :: rest =>
      if String.leb (fl_code (fa_lot x)) (fl_code (fa_lot y))
      then x :: y :: rest
      else y :: f_insert_by_code x rest
  end.

Fixpoint f_sort_by_code (l : list f_avail_lot) : list f_avail_lot :=
  match l with
  | [] => []
  | x :: rest => f_insert_by_code x (f_sort_by_code rest)
  end.

(** [get_available_lots]: the HAVING clause and the Python [available]
    field both compute [received_qty - issued_qty]. *)
Definition f_get_available_lots (p : platform) (s : f_db) (iid : nat) : list f_avail_lot :=
  let rows := filter (fun l => Nat.eqb (fl_item_id l) iid
                               && qc_status_eqb (fl_qc_status l) APPROVED)
                     (f_lots s) in
  let grouped := map (fun l => let iss := f_lot_issued_qty p s (fl_id l) in
                               mkFAvail l iss (fsub (fl_received_qty l) iss)) rows in
  f_sort_by_code (filter (fun a => fltb f0 (fsub (fl_received_qty (fa_lot a)) (fa_issued_qty a)))
                         grouped).

Definition f_create_item (s : f_db) (code name : string) (qc_required : bool)
  : result item * f_db :=
  let iid := f_next_id s in
  if existsb (fun it => String.eqb (item_code it) code) (f_items s)
  then (Err DUPLICATE_ITEM_CODE, s)
  else let it := mkItem iid code name qc_required in
       (Ok it, mkFDb (f_items s ++ [it]) (f_lots s) (f_ledger s)
                     (f_reservations s) (S iid)).

(** [receive_inventory]; [Field(gt=0)] is [0 < qty]. *)
Definition f_receive_inventory (s : f_db) (iid : nat) (code : string) (qty : float)
  : result f_lot * f_db :=
  if negb (fltb f0 qty) then (Err REQUEST_VALIDATION_ERROR, s) else
  match f_get_item s iid with
  | None => (Err ITEM_NOT_FOUND, s)
  | Some it =>
      let st := if item_qc_required it then QUARANTINE else APPROVED in
      let lid := f_next_id s in
      let ledger_id := S lid in
      if existsb (fun l => String.eqb (fl_code l) code) (f_lots s)
      then (Err DUPLICATE_LOT_CODE, s)
      else
        let l := mkFLot lid iid code qty st in
        let e := mkFEntry ledger_id iid (Some lid) RECEIVE qty None in
        (Ok l, mkFDb (f_items s) (f_lots s ++ [l])
                     (f_ledger s ++ [e]) (f_reservations s) (S ledger_id))
  end.

(** [reserve_inventory]: [if summary.available < request.qty], then
    [if not lots]. *)
Definition f_reserve_inventory (p : platform) (s : f_db) (iid : nat) (qty : float)
  : result nat * f_db :=
  if negb (fltb f0 qty) then (Err REQUEST_VALIDATION_ERROR, s) else
  match f_get_item s iid with
  | None => (Err ITEM_NOT_FOUND, s)
  | Some _ =>
      let summary := f_calculate_stock p s iid in
      if fltb (f_available summary) qty then (Err INSUFFICIENT_STOCK, s) else
      match f_get_available_lots p s iid with
      | [] => (Err NO_QC_APPROVED_LOT, s)
      | _ :: _ =>
          let rid := f_next_id s in
          let ledger_id := S rid in
          (Ok rid, mkFDb (f_items s) (f_lots s)
                         (f_ledger s ++
                            [mkFEntry ledger_id iid None RESERVE qty (Some rid)])
                         (f_reservations s ++ [mkFReservation rid iid qty OPEN])
                         (S ledger_id))
      end
  end.

(** The FIFO loop: [if remaining_qty <= 0: break;
    qty_from_lot = min(lot['available'], remaining_qty); ...;
    remaining_qty -= qty_from_lot]. *)
Fixpoint f_issue_loop (lots : list f_avail_lot) (remaining_qty : float)
  : list (f_avail_lot * float) :=
  match lots with
  | [] => []
  | l :: rest =>
      if fleb remaining_qty f0 then []
      else let qty_from_lot := py_min (fa_available l) remaining_qty in
           (l, qty_from_lot) :: f_issue_loop rest (fsub remaining_qty qty_from_lot)
  end.


Fixpoint f_issue_entries (n iid rid : nat) (allocs : list (f_avail_lot * float))
  : list f_entry :=
  match allocs with
  | [] => []
  | (l, q) :: rest =>
      mkFEntry n iid (Some (fl_id (fa_lot l))) ISSUE q (Some rid)
        :: f_issue_entries (S n) iid rid rest
  end.

Record f_issued_line := mkFLine {
  fil_lot_id : nat;
  fil_lot_code : string;
  fil_qty : float
}.

Record f_issue_response := mkFIssueResponse {
  fir_reservation_id : nat;
  fir_item_id : nat;
  fir_qty : float;
  f_lots_issued : list f_issued_line
}.

Definition f_line_of (a : f_avail_lot * float) : f_issued_line :=
  mkFLine (fl_id (fa_lot (fst a))) (fl_code (fa_lot (fst a))) (snd a).

Definition f_set_issued (rid : nat) (rs : list f_reservation) : list f_reservation :=
  map (fun r => if Nat.eqb (fr_id r) rid
                then mkFReservation (fr_id r) (fr_item_id r) (fr_qty r) ISSUED
                else r) rs.

Definition f_find_reservation (s : f_db) (rid : nat) : option f_reservation :=
  find (fun r => Nat.eqb (fr_id r) rid) (f_reservations s).

(** [issue_inventory]: [total_available = sum(lot['available'] for lot in
    lots)], then [if total_available < qty_to_issue]. *)
Definition f_issue_inventory (p : platform) (s : f_db) (rid : nat)
  : result f_issue_response * f_db :=
  match f_find_reservation s rid with
  | None => (Err RESERVATION_NOT_FOUND, s)
  | Some r =>
      if negb (res_status_eqb (fr_status r) OPEN)
      then (Err RESERVATION_ALREADY_ISSUED, s) else
      let iid := fr_item_id r in
      let qty_to_issue := fr_qty r in
      match f_get_available_lots p s iid with
      | [] => (Err NO_QC_APPROVED_LOT, s)
      | lots =>
          let total_available := py_sum (python_sum p) (map fa_available lots) in
          if fltb total_available qty_to_issue then (Err INSUFFICIENT_STOCK, s) else
          let allocs := f_issue_loop lots qty_to_issue in
          let n0 := f_next_id s in
          let n1 := (n0 + List.length allocs)%nat in
          let unres := mkFEntry n1 iid None UNRESERVE qty_to_issue (Some rid) in
          (Ok (mkFIssueResponse rid iid qty_to_issue (map f_line_of allocs)),
           mkFDb (f_items s) (f_lots s)
                 (f_ledger s ++ f_issue_entries n0 iid rid allocs ++ [unres])
                 (f_set_issued rid (f_reservations s)) (S n1))
      end
  end.

Definition f_set_lot_qc_status (lid : nat) (st : qc_status) (ls : list f_lot) : list f_lot :=
  map (fun l => if Nat.eqb (fl_id l) lid
                then mkFLot (fl_id l) (fl_item_id l) (fl_code l) (fl_received_qty l) st
                else l) ls.

Definition f_update_lot_qc_status (s : f_db) (lid : nat) (st : qc_status)
  : result (nat * qc_status) * f_db :=
  if qc_status_eqb st QUARANTINE then (Err REQUEST_VALIDATION_ERROR, s) else
  match find (fun l => Nat.eqb (fl_id l) lid) (f_lots s) with
  | None => (Err LOT_NOT_FOUND, s)
  | Some _ =>
      (Ok (lid, st),
       mkFDb (f_items s) (f_set_lot_qc_status lid st (f_lots s))
             (f_ledger s) (f_reservations s) (f_next_id s))
  end.

Inductive f_request :=
  | FReqCreateItem (code name : string) (qc_required : bool)
  | FReqReceive (iid : nat) (code : string) (qty : float)
  | FReqReserve (iid : nat) (qty : float)
  | FReqIssue (rid : nat)
  | FReqQc (lid : nat) (st : qc_status).

Definition f_step (p : platform) (s : f_db) (q : f_request) : f_db :=
  match q with
  | FReqCreateItem c n b => snd (f_create_item s c n b)
  | FReqReceive i c x => snd (f_receive_inventory s i c x)
  | FReqReserve i x => snd (f_reserve_inventory p s i x)
  | FReqIssue r => snd (f_issue_inventory p s r)
  | FReqQc l st => snd (f_update_lot_qc_status s l st)
  end.

Definition f_run (p : platform) (s : f_db) (qs : list f_request) : f_db :=
  fold_left (f_step p) qs s.

(** *** Whole quantities

    A request whose quantities are integers, sent as floats. *)






Definition emb_request (q : request) : f_request :=
  match q with
  | ReqCreateItem c n b => FReqCreateItem c n b
  | ReqReceive i c x => FReqReceive i c (float_of_Z x)
  | ReqReserve i x => FReqReserve i (float_of_Z x)
  | ReqIssue r => FReqIssue r
  | ReqQc l st => FReqQc l st
  end.





(** *** Float scenarios *)



(** Lot 1 (50) approved, lot 3 (100) still quarantined. *)
Definition f_scenario_mixed_qc : list f_request :=
  map emb_request [ReqCreateItem "ITEM-QC" "QC Widget" true;
                   ReqReceive 0 "LOT-1" 50; ReqReceive 0 "LOT-2" 100;
                   ReqQc 1 APPROVED].

(** The four platforms. *)
Definition platforms : list platform :=
  [mkPlatform Plain Plain; mkPlatform Plain Compensated;
   mkPlatform Compensated Plain; mkPlatform Compensated Compensated].

(** ** Lemmas on the derived quantities *)

Lemma sumZ_app (l1 l2 : list Z) : sumZ (l1 ++ l2) = sumZ l1 + sumZ l2.
Proof. induction l1 as [|x l1 IH]; simpl; [reflexivity | rewrite IH; lia]. Qed.

Lemma sumZ_cons (x : Z) (l : list Z) : sumZ (x :: l) = x + sumZ l.
Proof. reflexivity. Qed.

(** The part of an item's ledger sum contributed by the ISSUE entries of one
    issue request. *)
Lemma issue_entries_sum (t : txn_type) (n iid rid i : nat) allocs :
  sumZ (map (entry_qty t i) (issue_entries n iid rid allocs))
  = if Nat.eqb iid i && txn_type_eqb ISSUE t then sumZ (map snd allocs) else 0.
Proof.
  revert n; induction allocs as [|[a q] rest IH]; intro n; simpl.
  - destruct (Nat.eqb iid i), t; reflexivity.
  - unfold sumZ, entry_qty in *; simpl; rewrite IH. destruct (Nat.eqb iid i), t; simpl; lia.
Qed.

(** With a non-negative request and lots of non-negative availability, the
    FIFO loop hands out [min qty total_available]. *)
Lemma issue_loop_sum (lots : list avail_lot) (q : Z) :
  0 <= q -> Forall (fun a => 0 <= al_available a) lots ->
  sumZ (map snd (issue_loop lots q)) = Z.min q (sumZ (map al_available lots)).
Proof.
  revert q; induction lots as [|a rest IH]; intros q Hq Hall.
  - cbn. lia.
  - inversion Hall as [|? ? Ha Hrest]; subst.
    assert (Hr : 0 <= sumZ (map al_available rest)).
    { clear IH Hall; induction Hrest as [|x l Hx _ IHl]; cbn [map];
      [cbn; lia | rewrite sumZ_cons; cbv beta in Hx; lia]. }
    cbn [issue_loop map]. rewrite sumZ_cons.
    destruct (q <=? 0) eqn:Hq0.
    + apply Z.leb_le in Hq0. cbn. lia.
    + apply Z.leb_gt in Hq0. cbn [map]. rewrite sumZ_cons, IH by (auto; lia). cbn [snd]. lia.
Qed.

Lemma set_issued_le (rid i : nat) (rs : list reservation) :
  Forall (fun r => 0 < res_qty r) rs ->
  open_reserved (set_issued rid rs) i <= open_reserved rs i.
Proof.
  unfold open_reserved, set_issued; induction 1 as [|r rs Hr Hrs IH]; simpl; [lia|].
  destruct (Nat.eqb (res_id r) rid); simpl;
    destruct (Nat.eqb (res_item_id r) i), (res_status r); simpl; lia.
Qed.

(** Issuing reservation [r] (the first row with id [rid], status OPEN)
    releases at least its quantity from its item's reserved total. *)
Lemma set_issued_releases (rid i : nat) (rs : list reservation) (r : reservation) :
  Forall (fun r => 0 < res_qty r) rs ->
  find (fun r => Nat.eqb (res_id r) rid) rs = Some r ->
  res_status r = OPEN ->
  open_reserved (set_issued rid rs) i
    + (if Nat.eqb (res_item_id r) i then res_qty r else 0)
  <= open_reserved rs i.
Proof.
  intros Hall; induction Hall as [|a rs Ha Hrs IH]; simpl; [discriminate|].
  intros Hf Hst.
  pose proof (set_issued_le rid i rs Hrs) as Hle.
  unfold open_reserved, set_issued in *; simpl.
  destruct (Nat.eqb (res_id a) rid) eqn:Hid.
  - injection Hf as <-. simpl. rewrite Hst. simpl.
    destruct (Nat.eqb (res_item_id a) i); simpl; lia.
  - specialize (IH Hf Hst). simpl in IH.
    destruct (Nat.eqb (res_item_id a) i && res_status_eqb (res_status a) OPEN); lia.
Qed.

Lemma In_insert_by_code (x y : avail_lot) (l : list avail_lot) :
  In y (insert_by_code x l) -> y = x \/ In y l.
Proof.
  induction l as [|z l IH]; simpl.
  - intros [H|[]]; auto.
  - destruct (String.leb _ _); simpl.
    + intros [H|[H|H]]; auto.
    + intros [H|H]; auto. destruct (IH H); auto.
Qed.

Lemma In_sort_by_code (y : avail_lot) (l : list avail_lot) :
  In y (sort_by_code l) -> In y l.
Proof.
  induction l as [|x l IH]; simpl; [auto|].
  intros H. destruct (In_insert_by_code _ _ _ H); auto.
Qed.

(** Every row returned by [get_available_lots] is an APPROVED lot of the
    item with positive availability [received_qty - issued_qty]. *)
Lemma get_available_lots_spec (s : db) (iid : nat) (a : avail_lot) :
  In a (get_available_lots s iid) ->
  In (al_lot a) (inventory_lots s) /\ lot_item_id (al_lot a) = iid
  /\ lot_qc_status (al_lot a) = APPROVED
  /\ al_issued_qty a = lot_issued_qty s (lot_id (al_lot a))
  /\ al_available a = received_qty (al_lot a) - al_issued_qty a
  /\ 0 < al_available a.
Proof.
  unfold get_available_lots. intros H.
  apply In_sort_by_code, filter_In in H as [H Hpos].
  apply in_map_iff in H as [l [<- Hl]].
  apply filter_In in Hl as [Hl Hc].
  apply andb_prop in Hc as [Hi Hq].
  apply Z.ltb_lt in Hpos. simpl in *.
  apply Nat.eqb_eq in Hi.
  destruct (lot_qc_status l); try discriminate.
  repeat split; auto.
Qed.

Lemma get_available_lots_pos (s : db) (iid : nat) :
  Forall (fun a => 0 < al_available a) (get_available_lots s iid).
Proof.
  apply Forall_forall; intros a Ha.
  apply get_available_lots_spec in Ha; tauto.
Qed.

Lemma sumZ_nil : sumZ [] = 0.
Proof. reflexivity. Qed.

(** Reduce the projections of a freshly built [db] and the quantity of
    concrete ledger entries, keeping the sums folded. *)
Ltac simpl_db :=
  cbn [map reservations inventory_ledger items inventory_lots next_id snd fst];
  unfold entry_qty; cbn [led_item_id led_txn_type led_qty txn_type_eqb];
  rewrite ?sumZ_cons, ?sumZ_nil.

Lemma calculate_stock_ext (s s' : db) (i : nat) :
  inventory_ledger s' = inventory_ledger s -> reservations s' = reservations s ->
  calculate_stock s' i = calculate_stock s i.
Proof. intros Hl Hr. unfold calculate_stock, ledger_sum. rewrite Hl, Hr. reflexivity. Qed.

Lemma ledger_sum_app (t : txn_type) (s s' : db) (i : nat) (l : list ledger_entry) :
  inventory_ledger s' = inventory_ledger s ++ l ->
  ledger_sum t s' i = ledger_sum t s i + sumZ (map (entry_qty t i) l).
Proof. intros H. unfold ledger_sum. rewrite H, map_app, sumZ_app. reflexivity. Qed.

Lemma open_reserved_app (rs l : list reservation) (i : nat) :
  open_reserved (rs ++ l) i = open_reserved rs i + open_reserved l i.
Proof. unfold open_reserved. rewrite map_app, sumZ_app. reflexivity. Qed.

Lemma available_eq (s : db) (i : nat) :
  available (calculate_stock s i)
  = ledger_sum RECEIVE s i - ledger_sum ISSUE s i - open_reserved (reservations s) i.
Proof. reflexivity. Qed.

(** The stock invariant: no item has negative availability, and every
    reservation row holds a positive quantity. *)
Definition stock_inv (s : db) : Prop :=
  (forall i, 0 <= available (calculate_stock s i))
  /\ Forall (fun r => 0 < res_qty r) (reservations s).

Lemma create_item_inv (s : db) c n b :
  stock_inv s -> stock_inv (snd (create_item s c n b)).
Proof.
  unfold create_item. destruct (existsb _ _); [auto|].
  intros [Ha Hr]; split; [intro i; rewrite (calculate_stock_ext s); auto | exact Hr].
Qed.

Lemma receive_inventory_inv (s : db) iid c qty :
  stock_inv s -> stock_inv (snd (receive_inventory s iid c qty)).
Proof.
  unfold receive_inventory. intros [Ha Hr].
  destruct (qty <=? 0) eqn:Hq; [split; auto|].
  destruct (get_item s iid) as [it|]; [|split; auto].
  destruct (existsb _ _); [split; auto|].
  apply Z.leb_gt in Hq. split; [|exact Hr].
  intro i. specialize (Ha i). rewrite available_eq in *. cbn [snd].
  erewrite (ledger_sum_app RECEIVE s _ i), (ledger_sum_app ISSUE s _ i)
    by (cbn; reflexivity).
  simpl_db. destruct (Nat.eqb iid i); cbn; lia.
Qed.

Lemma reserve_inventory_inv (s : db) iid qty :
  stock_inv s -> stock_inv (snd (reserve_inventory s iid qty)).
Proof.
  unfold reserve_inventory. intros [Ha Hr].
  destruct (qty <=? 0) eqn:Hq; [split; auto|].
  destruct (get_item s iid) as [it|]; [|split; auto].
  destruct (available (calculate_stock s iid) <? qty) eqn:Hav; [split; auto|].
  destruct (get_available_lots s iid); [split; auto|].
  apply Z.leb_gt in Hq. apply Z.ltb_ge in Hav. cbn [snd]. split.
  - intro i. pose proof (Ha i) as Hi. rewrite available_eq in *.
    erewrite (ledger_sum_app RECEIVE s _ i), (ledger_sum_app ISSUE s _ i)
      by (cbn; reflexivity).
    simpl_db. rewrite open_reserved_app.
    unfold open_reserved at 2; simpl_db; cbn [res_item_id res_status res_qty].
    destruct (Nat.eqb iid i) eqn:Hii; cbn; [|lia].
    apply Nat.eqb_eq in Hii; subst. lia.
  - cbn. apply Forall_app; split; auto.
Qed.

Lemma issue_inventory_inv (s : db) rid :
  stock_inv s -> stock_inv (snd (issue_inventory s rid)).
Proof.
  unfold issue_inventory. intros [Ha Hr].
  destruct (find_reservation s rid) as [r|] eqn:Hf; [|split; auto].
  destruct (negb (res_status_eqb (res_status r) OPEN)) eqn:Hst; [split; auto|].
  assert (Hopen : res_status r = OPEN)
    by (destruct (res_status r); try discriminate; reflexivity).
  pose proof (get_available_lots_pos s (res_item_id r)) as Hpos.
  destruct (get_available_lots s (res_item_id r)) as [|a l] eqn:Hl; [split; auto|].
  destruct (sumZ (map al_available (a :: l)) <? res_qty r) eqn:Htot; [split; auto|].
  apply Z.ltb_ge in Htot.
  unfold find_reservation in Hf.
  assert (Hq : 0 < res_qty r).
  { apply find_some in Hf as [Hin _]. rewrite Forall_forall in Hr. auto. }
  assert (Hsum : sumZ (map snd (issue_loop (a :: l) (res_qty r))) = res_qty r).
  { rewrite issue_loop_sum; [lia | lia |].
    eapply Forall_impl; [|exact Hpos]. cbv beta; intros; lia. }
  remember (issue_loop (a :: l) (res_qty r)) as allocs eqn:Hal.
  cbn [snd]. split.
  - intro i. pose proof (Ha i) as Hi. rewrite available_eq in *.
    erewrite (ledger_sum_app RECEIVE s _ i), (ledger_sum_app ISSUE s _ i)
      by (cbn; reflexivity).
    rewrite !map_app, !sumZ_app, !issue_entries_sum, Hsum. simpl_db.
    pose proof (set_issued_releases rid i (reservations s) r Hr Hf Hopen).
    destruct (Nat.eqb (res_item_id r) i); cbn in *; lia.
  - cbn [reservations]. unfold set_issued. apply Forall_map.
    eapply Forall_impl; [|exact Hr]. intros x Hx.
    destruct (Nat.eqb (res_id x) rid); exact Hx.
Qed.

Lemma update_lot_qc_status_inv (s : db) lid st :
  stock_inv s -> stock_inv (snd (update_lot_qc_status s lid st)).
Proof.
  unfold update_lot_qc_status. intros [Ha Hr].
  destruct (qc_status_eqb st QUARANTINE); [split; auto|].
  destruct (find _ _); [|split; auto].
  split; [intro i; rewrite (calculate_stock_ext s); auto | exact Hr].
Qed.

Lemma step_inv (s : db) (q : request) : stock_inv s -> stock_inv (step s q).
Proof.
  destruct q; cbn [step].
  - apply create_item_inv.
  - apply receive_inventory_inv.
  - apply reserve_inventory_inv.
  - apply issue_inventory_inv.
  - apply update_lot_qc_status_inv.
Qed.

Lemma reachable_inv (s : db) : reachable s -> stock_inv s.
Proof.
  induction 1 as [|s q _ IH].
  - split; [intro i; cbn; lia | constructor].
  - apply step_inv, IH.
Qed.


(** *** The [ORDER BY lot_code] sort *)

Lemma string_leb_flip (x y : string) :
  String.leb x y = false -> String.leb y x = true.
Proof. intros H. destruct (String.leb_total x y); congruence. Qed.

Lemma insert_by_code_hd (a x : avail_lot) (l : list avail_lot) :
  HdRel code_le a l -> code_le a x -> HdRel code_le a (insert_by_code x l).
Proof.
  intros Hd Hax. destruct l as [|y l]; cbn.
  - constructor. exact Hax.
  - destruct (String.leb _ _); constructor; [exact Hax|].
    inversion Hd; assumption.
Qed.

Lemma insert_by_code_sorted (x : avail_lot) (l : list avail_lot) :
  Sorted code_le l -> Sorted code_le (insert_by_code x l).
Proof.
  induction l as [|y l IH]; intros Hs; cbn.
  - repeat constructor.
  - destruct (String.leb (lot_code (al_lot x)) (lot_code (al_lot y))) eqn:Hxy.
    + constructor; [exact Hs | constructor; exact Hxy].
    + inversion Hs as [|? ? Hl Hd]; subst. constructor; [auto|].
      apply insert_by_code_hd; [exact Hd|]. apply string_leb_flip, Hxy.
Qed.

Lemma sort_by_code_sorted (l : list avail_lot) : Sorted code_le (sort_by_code l).
Proof.
  induction l as [|x l IH]; cbn; [constructor | apply insert_by_code_sorted, IH].
Qed.

Lemma In_insert_by_code_r (x y : avail_lot) (l : list avail_lot) :
  y = x \/ In y l -> In y (insert_by_code x l).
Proof.
  induction l as [|z l IH]; cbn.
  - intros [H|[]]; auto.
  - destruct (String.leb _ _); cbn.
    + intros [H|[H|H]]; auto.
    + intros [H|[H|H]]; auto.
Qed.

Lemma In_sort_by_code_r (y : avail_lot) (l : list avail_lot) :
  In y l -> In y (sort_by_code l).
Proof.
  induction l as [|x l IH]; cbn; [auto|].
  intros [H|H]; apply In_insert_by_code_r; auto.
Qed.

(** [get_available_lots] is empty exactly when no APPROVED lot of the item
    has positive availability. *)
Lemma get_available_lots_nil (s : db) (iid : nat) :
  get_available_lots s iid = [] <->
  (forall l, In l (inventory_lots s) -> lot_item_id l = iid ->
             lot_qc_status l = APPROVED ->
             received_qty l - lot_issued_qty s (lot_id l) <= 0).
Proof.
  split.
  - intros Hnil l Hin Hi Hst.
    destruct (Z_le_gt_dec (received_qty l - lot_issued_qty s (lot_id l)) 0) as [H|H];
      [exact H|exfalso].
    assert (Hin' : In (mkAvail l (lot_issued_qty s (lot_id l))
                          (received_qty l - lot_issued_qty s (lot_id l)))
                      (get_available_lots s iid)).
    { unfold get_available_lots. apply In_sort_by_code_r, filter_In. split.
      - apply in_map_iff. eexists; split; [reflexivity|].
        apply filter_In. split; [exact Hin|]. rewrite Hi, Hst, Nat.eqb_refl. reflexivity.
      - cbn. apply Z.ltb_lt. lia. }
    rewrite Hnil in Hin'. destruct Hin'.
  - intros Hall. destruct (get_available_lots s iid) as [|a l] eqn:Hg; [reflexivity|].
    exfalso. assert (Ha : In a (get_available_lots s iid)) by (rewrite Hg; left; reflexivity).
    apply get_available_lots_spec in Ha as (Hin & Hi & Hst & Hiss & Hav & Hpos).
    specialize (Hall _ Hin Hi Hst). lia.
Qed.

(** *** The FIFO loop *)

Lemma issue_loop_prefix (lots : list avail_lot) (q : Z) :
  exists rest, lots = map fst (issue_loop lots q) ++ rest.
Proof.
  revert q; induction lots as [|a lots IH]; intros q; cbn.
  - exists []. reflexivity.
  - destruct (q <=? 0).
    + exists (a :: lots). reflexivity.
    + destruct (IH (q - Z.min (al_available a) q)) as [rest Hr].
      exists rest. cbn. rewrite <- Hr. reflexivity.
Qed.

(** Each step of the loop hands out [min(lot available, remaining)], where
    [remaining] is the requested quantity minus what the earlier steps
    handed out, and runs only while [remaining > 0]. *)
Lemma issue_loop_step (lots : list avail_lot) (q : Z) l1 x l2 :
  issue_loop lots q = l1 ++ x :: l2 ->
  0 < q - sumZ (map snd l1)
  /\ snd x = Z.min (al_available (fst x)) (q - sumZ (map snd l1)).
Proof.
  revert q l1; induction lots as [|a lots IH]; intros q l1 H; cbn in H.
  - destruct l1; discriminate.
  - destruct (q <=? 0) eqn:Hq; [destruct l1; discriminate|].
    apply Z.leb_gt in Hq.
    destruct l1 as [|y l1]; cbn in H; injection H as Hy Hrest.
    + subst x. cbn [map snd fst]. rewrite sumZ_nil. split; [lia|]. f_equal; lia.
    + subst y. apply IH in Hrest as [H1 H2]. cbn [map snd].
      rewrite sumZ_cons. split; [lia|]. rewrite H2. f_equal. lia.
Qed.

Lemma In_issue_loop (lots : list avail_lot) (q : Z) (x : avail_lot * Z) :
  In x (issue_loop lots q) -> In (fst x) lots.
Proof.
  destruct (issue_loop_prefix lots q) as [rest Hr]. intros H.
  rewrite Hr. apply in_or_app. left. apply in_map, H.
Qed.

(** *** Reservations after an issue *)

Lemma find_set_issued (rid : nat) (rs : list reservation) :
  find (fun r => Nat.eqb (res_id r) rid) (set_issued rid rs)
  = option_map (fun r => mkReservation (res_id r) (res_item_id r) (res_qty r) ISSUED)
               (find (fun r => Nat.eqb (res_id r) rid) rs).
Proof.
  induction rs as [|r rs IH]; cbn; [reflexivity|].
  destruct (Nat.eqb (res_id r) rid) eqn:E; cbn; [rewrite E; reflexivity|].
  rewrite E. exact IH.
Qed.

Lemma precedes_two {A : Type} (x y u v : A) :
  precedes x y [u; v] -> x = u /\ y = v.
Proof.
  intros (l1 & l2 & l3 & H).
  destruct l1 as [|w [|w' l1]]; cbn in H.
  - injection H as Hx H. destruct l2 as [|z l2]; cbn in H.
    + injection H as Hy H. auto.
    + injection H as _ H. destruct l2; discriminate.
  - injection H as _ _ H. destruct l2; discriminate.
  - injection H as _ _ H. destruct l1; discriminate.
Qed.

Lemma issue_entries_lines (n iid rid : nat) (allocs : list (avail_lot * Z)) :
  Forall2 (fun e ln => led_txn_type e = ISSUE /\ led_item_id e = iid
                       /\ led_lot_id e = Some (il_lot_id ln)
                       /\ led_qty e = il_qty ln /\ led_reservation_id e = Some rid)
          (issue_entries n iid rid allocs) (map line_of allocs).
Proof.
  revert n; induction allocs as [|[a q] allocs IH]; intros n; cbn;
    constructor; [cbn; repeat split | apply IH].
Qed.

(** Unfolds a successful [issue_inventory] into its guards and result. *)
Lemma issue_inventory_ok (s : db) (rid : nat) (resp : issue_response) (s' : db) :
  issue_inventory s rid = (Ok resp, s') ->
  exists r lots,
    find_reservation s rid = Some r /\ res_status r = OPEN
    /\ get_available_lots s (res_item_id r) = lots /\ lots <> []
    /\ res_qty r <= sumZ (map al_available lots)
    /\ resp = mkIssueResponse rid (res_item_id r) (res_qty r)
                (map line_of (issue_loop lots (res_qty r)))
    /\ s' = mkDb (items s) (inventory_lots s)
              (inventory_ledger s
                 ++ issue_entries (next_id s) (res_item_id r) rid
                      (issue_loop lots (res_qty r))
                 ++ [mkEntry (next_id s + List.length (issue_loop lots (res_qty r)))
                       (res_item_id r) None UNRESERVE (res_qty r) (Some rid)])
              (set_issued rid (reservations s))
              (S (next_id s + List.length (issue_loop lots (res_qty r)))).
Proof.
  unfold issue_inventory. intros H.
  destruct (find_reservation s rid) as [r|] eqn:Hf; [|discriminate].
  destruct (negb (res_status_eqb (res_status r) OPEN)) eqn:Hst; [discriminate|].
  destruct (get_available_lots s (res_item_id r)) as [|a l] eqn:Hl; [discriminate|].
  destruct (sumZ (map al_available (a :: l)) <? res_qty r) eqn:Htot; [discriminate|].
  injection H as <- <-.
  exists r, (a :: l). repeat split; auto.
  - destruct (res_status r); try discriminate; reflexivity.
  - discriminate.
  - apply Z.ltb_ge in Htot. exact Htot.
Qed.

(** *** Reserve and lot status *)

Lemma reserve_inventory_result (s : db) (iid : nat) (qty : Z) :
  fst (reserve_inventory s iid qty)
  = if qty <=? 0 then Err REQUEST_VALIDATION_ERROR else
    match get_item s iid with
    | None => Err ITEM_NOT_FOUND
    | Some _ =>
        if available (calculate_stock s iid) <? qty then Err INSUFFICIENT_STOCK else
        match get_available_lots s iid with
        | [] => Err NO_QC_APPROVED_LOT
        | _ :: _ => Ok (next_id s)
        end
    end.
Proof.
  unfold reserve_inventory. destruct (qty <=? 0); [reflexivity|].
  destruct (get_item s iid); [|reflexivity].
  destruct (_ <? qty); [reflexivity|].
  destruct (get_available_lots s iid); reflexivity.
Qed.

(** Reserving a positive quantity of an existing item within its available
    stock fails with NO_QC_APPROVED_LOT when no APPROVED lot of the item has
    positive availability. *)
Lemma reserve_no_approved_stock (s : db) (iid : nat) (qty : Z) :
  0 < qty -> get_item s iid <> None ->
  qty <= available (calculate_stock s iid) ->
  (forall l, In l (inventory_lots s) -> lot_item_id l = iid ->
             lot_qc_status l = APPROVED ->
             received_qty l - lot_issued_qty s (lot_id l) <= 0) ->
  fst (reserve_inventory s iid qty) = Err NO_QC_APPROVED_LOT.
Proof.
  intros Hq Hi Hav Hall. rewrite reserve_inventory_result.
  destruct (qty <=? 0) eqn:E; [apply Z.leb_le in E; lia|].
  destruct (get_item s iid); [|congruence].
  destruct (_ <? qty) eqn:E2; [apply Z.ltb_lt in E2; lia|].
  apply get_available_lots_nil in Hall. rewrite Hall. reflexivity.
Qed.

Lemma find_app_some {A : Type} (p : A -> bool) (l1 l2 : list A) (x : A) :
  find p l1 = Some x -> find p (l1 ++ l2) = Some x.
Proof.
  induction l1 as [|y l1 IH]; cbn; [discriminate|].
  destruct (p y); auto.
Qed.

Lemma find_set_lot_qc_status (lid lid' : nat) (st : qc_status) (ls : list lot) :
  find (fun l => Nat.eqb (lot_id l) lid') (set_lot_qc_status lid st ls)
  = option_map (fun l => if Nat.eqb (lot_id l) lid
                         then mkLot (lot_id l) (lot_item_id l) (lot_code l)
                                    (received_qty l) st
                         else l)
               (find (fun l => Nat.eqb (lot_id l) lid') ls).
Proof.
  induction ls as [|l ls IH]; cbn; [reflexivity|].
  destruct (Nat.eqb (lot_id l) lid) eqn:E, (Nat.eqb (lot_id l) lid') eqn:E';
    cbn; rewrite ?E, ?E'; cbn; rewrite ?E; auto.
Qed.

(** Every request other than a QC update leaves the status of an existing
    lot as it was; a QC update only writes APPROVED or REJECTED. *)
Lemma lot_status_of_step (s : db) (q : request) (lid : nat) (st : qc_status) :
  lot_status_of s lid = Some st ->
  (forall l st', q <> ReqQc l st') -> lot_status_of (step s q) lid = Some st.
Proof.
  unfold lot_status_of. intros Hs Hq.
  destruct (find _ (inventory_lots s)) as [l|] eqn:Hf; [|discriminate].
  destruct q as [c n b|i c x|i x|r|l' st']; cbn [step].
  - unfold create_item. destruct (existsb _ _); cbn; rewrite Hf; exact Hs.
  - unfold receive_inventory. destruct (x <=? 0); [cbn; rewrite Hf; exact Hs|].
    destruct (get_item s i); [|cbn; rewrite Hf; exact Hs].
    destruct (existsb _ _); cbn; [rewrite Hf; exact Hs|].
    rewrite (find_app_some _ _ _ _ Hf). exact Hs.
  - unfold reserve_inventory. destruct (x <=? 0); [cbn; rewrite Hf; exact Hs|].
    destruct (get_item s i); [|cbn; rewrite Hf; exact Hs].
    destruct (_ <? x); [cbn; rewrite Hf; exact Hs|].
    destruct (get_available_lots s i); cbn; rewrite Hf; exact Hs.
  - unfold issue_inventory. destruct (find_reservation s r); [|cbn; rewrite Hf; exact Hs].
    destruct (negb _); [cbn; rewrite Hf; exact Hs|].
    destruct (get_available_lots _ _); [cbn; rewrite Hf; exact Hs|].
    destruct (_ <? _); cbn; rewrite Hf; exact Hs.
  - exfalso. exact (Hq l' st' eq_refl).
Qed.

(** ** The claims *)

(** C2 (as stated, refuted): the lots the allocation walks are not in
    creation order: with LOT-B received before LOT-A, LOT-A comes first. *)
Lemma C2_counterexample :
  ~ (forall a b,
        In a (get_available_lots scenario_code_order 0) ->
        In b (get_available_lots scenario_code_order 0) ->
        precedes (al_lot a) (al_lot b) (inventory_lots scenario_code_order) ->
        precedes a b (get_available_lots scenario_code_order 0)).
Proof.
  intros H.
  set (la := mkAvail (mkLot 3 0 "LOT-A" 10 APPROVED) 0 10).
  set (lb := mkAvail (mkLot 1 0 "LOT-B" 10 APPROVED) 0 10).
  assert (Hg : get_available_lots scenario_code_order 0 = [la; lb])
    by (vm_compute; reflexivity).
  assert (Hl : inventory_lots scenario_code_order = [al_lot lb; al_lot la])
    by (vm_compute; reflexivity).
  specialize (H lb la). rewrite Hg, Hl in H.
  assert (Hp : precedes lb la [la; lb]).
  { apply H; [right; left; reflexivity | left; reflexivity |].
    exists [], [], []. reflexivity. }
  apply precedes_two in Hp as [Hp _]. discriminate Hp.
Qed.

(** C2 (amended): the APPROVED lots with positive availability that the
    allocation walks are ordered by [lot_code] ascending (byte-wise
    lexicographic), whatever their creation order. *)
Theorem C2_lots_ordered_by_code (s : db) (iid : nat) :
  Sorted code_le (get_available_lots s iid)
  /\ (forall a, In a (get_available_lots s iid) ->
        In (al_lot a) (inventory_lots s) /\ lot_item_id (al_lot a) = iid
        /\ lot_qc_status (al_lot a) = APPROVED /\ 0 < al_available a).
Proof.
  split; [apply sort_by_code_sorted|].
  intros a Ha. apply get_available_lots_spec in Ha. tauto.
Qed.

(** C5: issuing a reservation whose status is not OPEN (ISSUED or
    CANCELLED) fails with RESERVATION_ALREADY_ISSUED and leaves the database,
    hence the ledger and every derived quantity, exactly as it was. *)
Theorem C5_issue_terminal_reservation (s : db) (rid : nat) (r : reservation) :
  find_reservation s rid = Some r -> res_status r <> OPEN ->
  issue_inventory s rid = (Err RESERVATION_ALREADY_ISSUED, s)
  /\ inventory_ledger (snd (issue_inventory s rid)) = inventory_ledger s
  /\ (forall i, calculate_stock (snd (issue_inventory s rid)) i = calculate_stock s i).
Proof.
  intros Hf Hst.
  assert (E : issue_inventory s rid = (Err RESERVATION_ALREADY_ISSUED, s)).
  { unfold issue_inventory. rewrite Hf.
    destruct (res_status r); [congruence | reflexivity | reflexivity]. }
  rewrite E. auto.
Qed.

Lemma C5_witness :
  issue_inventory (step scenario_summary (ReqIssue 3)) 3
    = (Err RESERVATION_ALREADY_ISSUED, step scenario_summary (ReqIssue 3))
  /\ inventory_ledger (snd (issue_inventory (step scenario_summary (ReqIssue 3)) 3))
     = inventory_ledger (step scenario_summary (ReqIssue 3))
  /\ (forall i, calculate_stock (snd (issue_inventory (step scenario_summary (ReqIssue 3)) 3)) i
                = calculate_stock (step scenario_summary (ReqIssue 3)) i).
Proof.
  apply (C5_issue_terminal_reservation _ 3%nat (mkReservation 3 0 30 ISSUED)).
  - vm_compute. reflexivity.
  - discriminate.
Defined.

(** C6: a successful issue of an OPEN reservation appends, after the
    existing ledger, one ISSUE entry per allocated lot (tagged with the
    reservation id, with the lot and quantity of the response line), then
    exactly one UNRESERVE entry for the full reserved quantity, and marks
    the reservation ISSUED; in the scenario receive 100, reserve 30, issue,
    the summary goes from 100/30/70 to 70/0/70 and reserving 1000 then fails
    with INSUFFICIENT_STOCK. *)
Theorem C6_issue_effects :
  (forall s rid resp s',
     issue_inventory s rid = (Ok resp, s') ->
     exists r es u,
       find_reservation s rid = Some r /\ res_status r = OPEN
       /\ inventory_ledger s' = inventory_ledger s ++ es ++ [u]
       /\ Forall2 (fun e ln => led_txn_type e = ISSUE /\ led_item_id e = res_item_id r
                               /\ led_lot_id e = Some (il_lot_id ln)
                               /\ led_qty e = il_qty ln
                               /\ led_reservation_id e = Some rid)
                  es (lots_issued resp)
       /\ led_txn_type u = UNRESERVE /\ led_item_id u = res_item_id r
       /\ led_qty u = res_qty r /\ led_reservation_id u = Some rid
       /\ find_reservation s' rid
          = Some (mkReservation rid (res_item_id r) (res_qty r) ISSUED))
  /\ get_stock_summary scenario_summary 0 = Ok (mkSummary 100 30 70)
  /\ fst (issue_inventory scenario_summary 3)
     = Ok (mkIssueResponse 3 0 30 [mkLine 1 "LOT-001" 30])
  /\ get_stock_summary (step scenario_summary (ReqIssue 3)) 0 = Ok (mkSummary 70 0 70)
  /\ fst (reserve_inventory (step scenario_summary (ReqIssue 3)) 0 1000)
     = Err INSUFFICIENT_STOCK.
Proof.
  split; [|repeat split; vm_compute; reflexivity].
  intros s rid resp s' H.
  apply issue_inventory_ok in H
    as (r & lots & Hf & Hst & Hl & Hne & Htot & -> & ->).
  eexists r, _, _.
  split; [exact Hf|]. split; [exact Hst|]. split; [reflexivity|].
  split; [apply issue_entries_lines|].
  cbn. repeat split.
  unfold find_reservation in *. cbn. rewrite find_set_issued, Hf. cbn.
  apply find_some in Hf as [_ Hid]. apply Nat.eqb_eq in Hid. rewrite Hid.
  reflexivity.
Qed.

Lemma C6_witness :
  exists r es u,
    find_reservation scenario_summary 3 = Some r /\ res_status r = OPEN
    /\ inventory_ledger (snd (issue_inventory scenario_summary 3))
       = inventory_ledger scenario_summary ++ es ++ [u]
    /\ Forall2 (fun e ln => led_txn_type e = ISSUE /\ led_item_id e = res_item_id r
                            /\ led_lot_id e = Some (il_lot_id ln)
                            /\ led_qty e = il_qty ln
                            /\ led_reservation_id e = Some 3%nat)
               es [mkLine 1 "LOT-001" 30]
    /\ led_txn_type u = UNRESERVE /\ led_item_id u = res_item_id r
    /\ led_qty u = res_qty r /\ led_reservation_id u = Some 3%nat
    /\ find_reservation (snd (issue_inventory scenario_summary 3)) 3
       = Some (mkReservation 3 (res_item_id r) (res_qty r) ISSUED).
Proof.
  apply (proj1 C6_issue_effects scenario_summary 3%nat
           (mkIssueResponse 3 0 30 [mkLine 1 "LOT-001" 30])
           (snd (issue_inventory scenario_summary 3))).
  vm_compute. reflexivity.
Defined.

(** C7 (as stated, refuted): with its only lot (50 units) in QUARANTINE,
    reserving 60 fails with INSUFFICIENT_STOCK, not NO_QC_APPROVED_LOT. *)
Lemma C7_counterexample :
  inventory_lots scenario_qc = [mkLot 1 0 "LOT-QC-001" 50 QUARANTINE]
  /\ fst (reserve_inventory scenario_qc 0 60) = Err INSUFFICIENT_STOCK.
Proof. split; vm_compute; reflexivity. Qed.

(** C7 (amended): receiving creates the lot in QUARANTINE when the item
    requires QC and APPROVED otherwise; while no lot of an existing item is
    APPROVED, reserving a positive quantity fails with INSUFFICIENT_STOCK
    when it exceeds the item's available stock and with NO_QC_APPROVED_LOT
    otherwise.  So after receiving 50 into a QC item, reserving 1 to 50
    fails with NO_QC_APPROVED_LOT, and once the lot is set to APPROVED,
    reserving 10 succeeds. *)
Theorem C7_qc_gating :
  (forall s iid c qty l s',
     receive_inventory s iid c qty = (Ok l, s') ->
     exists it, get_item s iid = Some it
       /\ lot_qc_status l = (if item_qc_required it then QUARANTINE else APPROVED)
       /\ In l (inventory_lots s'))
  /\ (forall s iid qty,
        0 < qty -> get_item s iid <> None ->
        (forall l, In l (inventory_lots s) -> lot_item_id l = iid ->
                   lot_qc_status l <> APPROVED) ->
        fst (reserve_inventory s iid qty)
        = if available (calculate_stock s iid) <? qty
          then Err INSUFFICIENT_STOCK else Err NO_QC_APPROVED_LOT)
  /\ inventory_lots scenario_qc = [mkLot 1 0 "LOT-QC-001" 50 QUARANTINE]
  /\ (forall qty, 0 < qty <= 50 ->
        fst (reserve_inventory scenario_qc 0 qty) = Err NO_QC_APPROVED_LOT)
  /\ fst (reserve_inventory (step scenario_qc (ReqQc 1 APPROVED)) 0 10) = Ok 3%nat.
Proof.
  assert (Hgate : forall s iid qty,
        0 < qty -> get_item s iid <> None ->
        (forall l, In l (inventory_lots s) -> lot_item_id l = iid ->
                   lot_qc_status l <> APPROVED) ->
        fst (reserve_inventory s iid qty)
        = if available (calculate_stock s iid) <? qty
          then Err INSUFFICIENT_STOCK else Err NO_QC_APPROVED_LOT).
  { intros s iid qty Hq Hi Hno.
    destruct (available (calculate_stock s iid) <? qty) eqn:E.
    - rewrite reserve_inventory_result.
      destruct (qty <=? 0) eqn:E0; [apply Z.leb_le in E0; lia|].
      destruct (get_item s iid); [|congruence]. rewrite E. reflexivity.
    - apply Z.ltb_ge in E. apply reserve_no_approved_stock; auto.
      intros l Hin Hli Hst. exfalso. exact (Hno l Hin Hli Hst). }
  split; [|split; [exact Hgate|]].
  - intros s iid c qty l s' H. unfold receive_inventory in H.
    destruct (qty <=? 0); [discriminate|].
    destruct (get_item s iid) as [it|]; [|discriminate].
    destruct (existsb _ _); [discriminate|].
    injection H as <- <-. exists it. split; [reflexivity|]. split; [reflexivity|].
    cbn. apply in_or_app. right. left. reflexivity.
  - split; [vm_compute; reflexivity|]. split; [|vm_compute; reflexivity].
    intros qty Hq. rewrite Hgate.
    + assert (Hav : available (calculate_stock scenario_qc 0) = 50)
        by (vm_compute; reflexivity).
      rewrite Hav. destruct (50 <? qty) eqn:E; [apply Z.ltb_lt in E; lia|reflexivity].
    + lia.
    + vm_compute. discriminate.
    + intros l Hin. vm_compute in Hin. destruct Hin as [<-|[]].
      intros _. discriminate.
Qed.

Lemma C7_witness :
  exists l s', receive_inventory (step init_db (ReqCreateItem "ITEM-QC" "QC Widget" true))
                 0 "LOT-QC-001" 50 = (Ok l, s')
    /\ lot_qc_status l = QUARANTINE.
Proof.
  do 2 eexists. split; [vm_compute; reflexivity|].
  destruct (proj1 C7_qc_gating
              (step init_db (ReqCreateItem "ITEM-QC" "QC Widget" true))
              0%nat "LOT-QC-001"%string 50
              (mkLot 1 0 "LOT-QC-001" 50 QUARANTINE)
              (snd (receive_inventory
                      (step init_db (ReqCreateItem "ITEM-QC" "QC Widget" true))
                      0 "LOT-QC-001" 50)))
    as (it & Hit & Hst & _).
  - vm_compute. reflexivity.
  - vm_compute in Hit. injection Hit as <-. exact Hst.
Defined.

(** C8: lot codes are unique over all items: once a lot with code [c]
    exists (for any item), receiving a positive quantity under code [c] into
    an existing item fails with DUPLICATE_LOT_CODE and the transaction is
    rolled back, so the existing lot, its RECEIVE entry and the whole
    database are unchanged and no partial lot or entry is left. *)
Theorem C8_duplicate_lot_code (s : db) (iid : nat) (c : string) (qty : Z) (l : lot) :
  In l (inventory_lots s) -> lot_code l = c ->
  get_item s iid <> None -> 0 < qty ->
  receive_inventory s iid c qty = (Err DUPLICATE_LOT_CODE, s)
  /\ inventory_lots (snd (receive_inventory s iid c qty)) = inventory_lots s
  /\ inventory_ledger (snd (receive_inventory s iid c qty)) = inventory_ledger s.
Proof.
  intros Hin Hc Hi Hq.
  assert (E : receive_inventory s iid c qty = (Err DUPLICATE_LOT_CODE, s)).
  { unfold receive_inventory.
    destruct (qty <=? 0) eqn:E0; [apply Z.leb_le in E0; lia|].
    destruct (get_item s iid); [|congruence].
    assert (Hex : existsb (fun l => String.eqb (lot_code l) c) (inventory_lots s) = true).
    { apply existsb_exists. exists l. split; [exact Hin|]. apply String.eqb_eq, Hc. }
    rewrite Hex. reflexivity. }
  rewrite E. auto.
Qed.

Lemma C8_witness :
  receive_inventory scenario_dup 1 "LOT-DUP-001" 5 = (Err DUPLICATE_LOT_CODE, scenario_dup)
  /\ inventory_lots (snd (receive_inventory scenario_dup 1 "LOT-DUP-001" 5))
     = inventory_lots scenario_dup
  /\ inventory_ledger (snd (receive_inventory scenario_dup 1 "LOT-DUP-001" 5))
     = inventory_ledger scenario_dup.
Proof.
  apply (C8_duplicate_lot_code scenario_dup 1 "LOT-DUP-001" 5
           (mkLot 2 0 "LOT-DUP-001" 10 APPROVED)).
  - vm_compute. left. reflexivity.
  - reflexivity.
  - vm_compute. discriminate.
  - lia.
Defined.

(** C9 (as stated, refuted): an APPROVED lot can be set to REJECTED. *)
Lemma C9_counterexample :
  lot_status_of scenario_mixed_qc 1 = Some APPROVED
  /\ lot_status_of (step scenario_mixed_qc (ReqQc 1 REJECTED)) 1 = Some REJECTED.
Proof. split; vm_compute; reflexivity. Qed.

(** C9 (amended): a QC update overwrites the status of an existing lot with
    the requested APPROVED or REJECTED whatever its current status (so
    APPROVED and REJECTED lots can be switched to each other); no request
    ever sets a lot back to QUARANTINE, and every other request leaves the
    status of an existing lot unchanged. *)
Theorem C9_qc_status_transitions :
  (forall s lid st, st <> QUARANTINE -> lot_status_of s lid <> None ->
     lot_status_of (step s (ReqQc lid st)) lid = Some st)
  /\ (forall s q lid st, lot_status_of s lid = Some st -> st <> QUARANTINE ->
        lot_status_of (step s q) lid <> Some QUARANTINE)
  /\ (forall s q lid st, lot_status_of s lid = Some st ->
        (forall l st', q <> ReqQc l st') -> lot_status_of (step s q) lid = Some st).
Proof.
  assert (Hqc : forall s lid st, st <> QUARANTINE -> lot_status_of s lid <> None ->
                lot_status_of (step s (ReqQc lid st)) lid = Some st).
  { intros s lid st Hst Hs. unfold lot_status_of in *. cbn [step].
    unfold update_lot_qc_status.
    destruct (qc_status_eqb st QUARANTINE) eqn:E; [destruct st; try discriminate; congruence|].
    destruct (find _ (inventory_lots s)) as [l|] eqn:Hf; [|cbn in Hs; congruence].
    cbn. rewrite find_set_lot_qc_status, Hf. cbn.
    apply find_some in Hf as [_ Hid]. rewrite Hid. reflexivity. }
  split; [exact Hqc|]. split.
  - intros s q lid st Hs Hst.
    destruct q as [c n b|i c x|i x|r|l' st'];
      try (rewrite (lot_status_of_step _ _ lid st Hs);
           [congruence | intros ? ? ?; discriminate]).
    unfold lot_status_of in *. cbn [step]. unfold update_lot_qc_status.
    destruct (qc_status_eqb st' QUARANTINE) eqn:E; [cbn; rewrite Hs; congruence|].
    destruct (find (fun l => Nat.eqb (lot_id l) l') (inventory_lots s));
      cbn [snd inventory_lots]; [|rewrite Hs; congruence].
    rewrite find_set_lot_qc_status.
    destruct (find (fun l => Nat.eqb (lot_id l) lid) (inventory_lots s)) as [m|];
      cbn in *; [|discriminate Hs].
    injection Hs as Hs.
    destruct (Nat.eqb (lot_id m) l'); cbn;
      [destruct st'; cbn in E; try discriminate E; congruence | congruence].
  - intros s q lid st Hs Hq. apply lot_status_of_step; assumption.
Qed.

Lemma C9_witness :
  lot_status_of (step scenario_mixed_qc (ReqQc 1 REJECTED)) 1 = Some REJECTED.
Proof.
  apply (proj1 C9_qc_status_transitions scenario_mixed_qc 1%nat REJECTED).
  - discriminate.
  - vm_compute. discriminate.
Defined.

(** C10 (as stated, refuted): when the item's only lot is APPROVED and fully
    issued, reserving fails with INSUFFICIENT_STOCK, not NO_QC_APPROVED_LOT. *)
Lemma C10_counterexample :
  lot_status_of scenario_exhausted_only 1 = Some APPROVED
  /\ lot_issued_qty scenario_exhausted_only 1 = 10
  /\ fst (reserve_inventory scenario_exhausted_only 0 5) = Err INSUFFICIENT_STOCK.
Proof. split; [|split]; vm_compute; reflexivity. Qed.

(** C10 (amended): when every APPROVED lot of an existing item is fully
    issued ([received - issued <= 0]) but the item's available stock
    (quarantined lots included) covers a positive request, reserve fails
    with NO_QC_APPROVED_LOT even though APPROVED lots exist; when the
    available stock does not cover it, INSUFFICIENT_STOCK is reported
    first. *)
Theorem C10_exhausted_approved_lots (s : db) (iid : nat) (qty : Z) :
  0 < qty -> get_item s iid <> None ->
  (forall l, In l (inventory_lots s) -> lot_item_id l = iid ->
             lot_qc_status l = APPROVED ->
             received_qty l - lot_issued_qty s (lot_id l) <= 0) ->
  fst (reserve_inventory s iid qty)
  = if available (calculate_stock s iid) <? qty
    then Err INSUFFICIENT_STOCK else Err NO_QC_APPROVED_LOT.
Proof.
  intros Hq Hi Hall.
  destruct (available (calculate_stock s iid) <? qty) eqn:E.
  - rewrite reserve_inventory_result.
    destruct (qty <=? 0) eqn:E0; [apply Z.leb_le in E0; lia|].
    destruct (get_item s iid); [|congruence]. rewrite E. reflexivity.
  - apply Z.ltb_ge in E. apply reserve_no_approved_stock; assumption.
Qed.

Lemma C10_witness :
  lot_status_of scenario_exhausted 1 = Some APPROVED
  /\ fst (reserve_inventory scenario_exhausted 0 5)
     = if available (calculate_stock scenario_exhausted 0) <? 5
       then Err INSUFFICIENT_STOCK else Err NO_QC_APPROVED_LOT.
Proof.
  split; [vm_compute; reflexivity|].
  apply C10_exhausted_approved_lots.
  - lia.
  - vm_compute. discriminate.
  - intros l Hin. vm_compute in Hin.
    destruct Hin as [<-|[<-|[]]]; intros _ Hst; vm_compute; [intro H; discriminate H|].
    discriminate Hst.
Defined.

(** ** Further properties of the endpoints *)

(** *** Well-formedness is preserved *)

Lemma Forall_below_mono {A : Type} (P : nat -> A -> Prop) (n m : nat) (l : list A) :
  (forall x, P n x -> P m x) -> Forall (P n) l -> Forall (P m) l.
Proof. intros H. apply Forall_impl, H. Qed.

Lemma lot_below_mono (n m : nat) (l : lot) : (n <= m)%nat -> lot_below n l -> lot_below m l.
Proof. unfold lot_below; lia. Qed.

Lemma entry_below_mono (n m : nat) (e : ledger_entry) :
  (n <= m)%nat -> entry_below n e -> entry_below m e.
Proof. unfold entry_below. intros H [H1 H2]. split; [lia|]. intros x Hx. specialize (H2 x Hx); lia. Qed.

Lemma res_below_mono (n m : nat) (r : reservation) : (n <= m)%nat -> res_below n r -> res_below m r.
Proof. unfold res_below; lia. Qed.

Lemma NoDup_snoc {A : Type} (l : list A) (x : A) : NoDup l -> ~ In x l -> NoDup (l ++ [x]).
Proof.
  intros Hl Hx. apply NoDup_app; [exact Hl | repeat constructor; intros [] |].
  intros a Ha [<-|[]]. exact (Hx Ha).
Qed.

Lemma not_In_below (l : list nat) (n : nat) : Forall (fun x => (x < n)%nat) l -> ~ In n l.
Proof. rewrite Forall_forall. intros H Hin. specialize (H n Hin). lia. Qed.

Lemma existsb_false_not_In {A : Type} (f : A -> string) (l : list A) (c : string) :
  existsb (fun x => String.eqb (f x) c) l = false -> ~ In c (map f l).
Proof.
  intros H Hin. apply in_map_iff in Hin as [x [Hx Hin]].
  assert (existsb (fun x => String.eqb (f x) c) l = true)
    by (apply existsb_exists; exists x; split; [exact Hin | apply String.eqb_eq, Hx]).
  congruence.
Qed.

Lemma get_item_In (s : db) (iid : nat) (it : item) :
  get_item s iid = Some it -> In it (items s) /\ item_id it = iid.
Proof.
  unfold get_item. intros H. apply find_some in H as [Hin Hid].
  split; [exact Hin | apply Nat.eqb_eq, Hid].
Qed.

Lemma find_reservation_In (s : db) (rid : nat) (r : reservation) :
  find_reservation s rid = Some r -> In r (reservations s) /\ res_id r = rid.
Proof.
  unfold find_reservation. intros H. apply find_some in H as [Hin Hid].
  split; [exact Hin | apply Nat.eqb_eq, Hid].
Qed.

Lemma Forall_issue_entries (P : ledger_entry -> Prop) (n iid rid : nat) allocs :
  (forall m a q, In (a, q) allocs -> P (mkEntry m iid (Some (lot_id (al_lot a))) ISSUE q (Some rid))) ->
  Forall P (issue_entries n iid rid allocs).
Proof.
  revert n; induction allocs as [|[a q] allocs IH]; intros n H; cbn; constructor.
  - apply H. left. reflexivity.
  - apply IH. intros m a' q' Hin. apply H. right. exact Hin.
Qed.

(** Every quantity the FIFO loop takes from a lot is positive. *)
Lemma issue_loop_take_pos (lots : list avail_lot) (q : Z) (x : avail_lot * Z) :
  Forall (fun a => 0 < al_available a) lots -> In x (issue_loop lots q) -> 0 < snd x.
Proof.
  intros Hpos Hin.
  pose proof (In_issue_loop _ _ _ Hin) as Hl.
  apply in_split in Hin as (l1 & l2 & Hs).
  apply issue_loop_step in Hs as [H1 H2].
  rewrite Forall_forall in Hpos. specialize (Hpos _ Hl). lia.
Qed.

Lemma set_lot_qc_status_Forall (P : lot -> Prop) (lid : nat) (st : qc_status) (ls : list lot) :
  (forall l, P l -> P (mkLot (lot_id l) (lot_item_id l) (lot_code l) (received_qty l) st)) ->
  Forall P ls -> Forall P (set_lot_qc_status lid st ls).
Proof.
  intros HP H. unfold set_lot_qc_status. apply Forall_map.
  eapply Forall_impl; [|exact H]. intros l Hl. destruct (Nat.eqb (lot_id l) lid); auto.
Qed.

Lemma set_lot_qc_status_map {B : Type} (f : lot -> B) (lid : nat) (st : qc_status) (ls : list lot) :
  (forall l, f (mkLot (lot_id l) (lot_item_id l) (lot_code l) (received_qty l) st) = f l) ->
  map f (set_lot_qc_status lid st ls) = map f ls.
Proof.
  intros Hf. unfold set_lot_qc_status. rewrite map_map. apply map_ext.
  intros l. destruct (Nat.eqb (lot_id l) lid); auto.
Qed.

Lemma set_issued_map {B : Type} (f : reservation -> B) (rid : nat) (rs : list reservation) :
  (forall r, f (mkReservation (res_id r) (res_item_id r) (res_qty r) ISSUED) = f r) ->
  map f (set_issued rid rs) = map f rs.
Proof.
  intros Hf. unfold set_issued. rewrite map_map. apply map_ext.
  intros r. destruct (Nat.eqb (res_id r) rid); auto.
Qed.

Lemma create_item_wf (s : db) c n b : db_wf s -> db_wf (snd (create_item s c n b)).
Proof.
  unfold create_item. intros W.
  destruct (existsb _ _) eqn:Ex; [exact W|]. cbn [snd].
  destruct W; constructor; cbn [items inventory_lots inventory_ledger reservations next_id].
  - apply Forall_app; split; [|constructor; cbn; [lia | constructor]].
    eapply Forall_impl; [|eassumption]. cbv beta; intros; lia.
  - eapply Forall_below_mono; [|eassumption]. intros; eapply lot_below_mono; [|eassumption]; lia.
  - eapply Forall_below_mono; [|eassumption]. intros; eapply entry_below_mono; [|eassumption]; lia.
  - eapply Forall_below_mono; [|eassumption]. intros; eapply res_below_mono; [|eassumption]; lia.
  - rewrite map_app. apply NoDup_snoc; [assumption|]. apply not_In_below.
    apply Forall_map. assumption.
  - assumption.
  - assumption.
  - rewrite map_app. apply NoDup_snoc; [assumption|]. apply existsb_false_not_In, Ex.
  - assumption.
  - assumption.
  - assumption.
Qed.

Ltac below_mono :=
  match goal with
  | H : Forall (lot_below _) ?l |- Forall (lot_below _) ?l =>
      eapply Forall_below_mono; [|exact H]; intros; eapply lot_below_mono; [|eassumption]; lia
  | H : Forall (entry_below _) ?l |- Forall (entry_below _) ?l =>
      eapply Forall_below_mono; [|exact H]; intros; eapply entry_below_mono; [|eassumption]; lia
  | H : Forall (res_below _) ?l |- Forall (res_below _) ?l =>
      eapply Forall_below_mono; [|exact H]; intros; eapply res_below_mono; [|eassumption]; lia
  | H : Forall (fun it => (item_id it < _)%nat) ?l |- Forall (fun it => (item_id it < _)%nat) ?l =>
      eapply Forall_impl; [|exact H]; cbv beta; intros; lia
  end.

Lemma receive_inventory_wf (s : db) iid c qty :
  db_wf s -> db_wf (snd (receive_inventory s iid c qty)).
Proof.
  unfold receive_inventory. intros W.
  destruct (qty <=? 0) eqn:Hq; [exact W|].
  destruct (get_item s iid) as [it|] eqn:Hit; [|exact W].
  destruct (existsb _ _) eqn:Ex; [exact W|]. cbn [snd].
  apply Z.leb_gt in Hq.
  destruct (get_item_In _ _ _ Hit) as [Hin Hid].
  assert (Hiid : (iid < next_id s)%nat).
  { rewrite <- Hid. pose proof (wf_item_ids s W) as H. rewrite Forall_forall in H. auto. }
  destruct W as [Wi Wl Wled Wr Win Wln Wrn Wic Wlc Wlq Wledq]; constructor; cbn [items inventory_lots inventory_ledger reservations next_id].
  - below_mono.
  - apply Forall_app; split; [below_mono|]. constructor; [|constructor].
    unfold lot_below; cbn; lia.
  - apply Forall_app; split; [below_mono|]. constructor; [|constructor].
    unfold entry_below; cbn. split; [lia|]. intros x Hx; injection Hx as <-; lia.
  - below_mono.
  - assumption.
  - rewrite map_app. apply NoDup_snoc; [assumption|]. apply not_In_below.
    apply Forall_map. exact (Forall_impl _ (fun l (H : lot_below _ l) => proj1 H) Wl).
  - assumption.
  - assumption.
  - rewrite map_app. apply NoDup_snoc; [assumption|]. apply existsb_false_not_In, Ex.
  - apply Forall_app; split; [assumption|]. constructor; [cbn; exact Hq | constructor].
  - apply Forall_app; split; [assumption|]. constructor; [cbn; exact Hq | constructor].
Qed.

Lemma reserve_inventory_wf (s : db) iid qty :
  db_wf s -> db_wf (snd (reserve_inventory s iid qty)).
Proof.
  unfold reserve_inventory. intros W.
  destruct (qty <=? 0) eqn:Hq; [exact W|].
  destruct (get_item s iid) as [it|] eqn:Hit; [|exact W].
  destruct (_ <? qty); [exact W|].
  destruct (get_available_lots s iid); [exact W|]. cbn [snd].
  apply Z.leb_gt in Hq.
  destruct (get_item_In _ _ _ Hit) as [Hin Hid].
  assert (Hiid : (iid < next_id s)%nat).
  { rewrite <- Hid. pose proof (wf_item_ids s W) as H. rewrite Forall_forall in H. auto. }
  destruct W as [Wi Wl Wled Wr Win Wln Wrn Wic Wlc Wlq Wledq]; constructor; cbn [items inventory_lots inventory_ledger reservations next_id].
  - below_mono.
  - below_mono.
  - apply Forall_app; split; [below_mono|]. constructor; [|constructor].
    unfold entry_below; cbn. split; [lia | discriminate].
  - apply Forall_app; split; [below_mono|]. constructor; [|constructor].
    unfold res_below; cbn; lia.
  - assumption.
  - assumption.
  - rewrite map_app. apply NoDup_snoc; [assumption|]. apply not_In_below.
    apply Forall_map. exact (Forall_impl _ (fun r (H : res_below _ r) => proj1 H) Wr).
  - assumption.
  - assumption.
  - assumption.
  - apply Forall_app; split; [assumption|]. constructor; [cbn; exact Hq | constructor].
Qed.

Lemma issue_inventory_wf (s : db) rid :
  stock_inv s -> db_wf s -> db_wf (snd (issue_inventory s rid)).
Proof.
  intros [_ Hr] W.
  destruct (issue_inventory s rid) as [[resp|e] s'] eqn:E; cbn [snd].
  2:{ unfold issue_inventory in E.
      destruct (find_reservation s rid); [|injection E as _ <-; exact W].
      destruct (negb _); [injection E as _ <-; exact W|].
      destruct (get_available_lots _ _); [injection E as _ <-; exact W|].
      destruct (_ <? _); [injection E as _ <-; exact W | discriminate]. }
  apply issue_inventory_ok in E
    as (r & lots & Hf & Hopen & Hlots & Hne & Htot & Hresp & ->).
  destruct (find_reservation_In _ _ _ Hf) as [Hin Hid].
  assert (Hb : res_below (next_id s) r)
    by (pose proof (wf_res_ids s W) as H; rewrite Forall_forall in H; auto).
  assert (Hq : 0 < res_qty r) by (rewrite Forall_forall in Hr; auto).
  pose proof (get_available_lots_pos s (res_item_id r)) as Hpos. rewrite Hlots in Hpos.
  destruct W; constructor; cbn [items inventory_lots inventory_ledger reservations next_id].
  - below_mono.
  - below_mono.
  - apply Forall_app; split; [below_mono|]. apply Forall_app; split.
    + apply Forall_issue_entries. intros m a q Ha.
      apply In_issue_loop in Ha. cbn [fst] in Ha. rewrite <- Hlots in Ha.
      apply get_available_lots_spec in Ha as [Hal _].
      match goal with H : Forall (lot_below _) (inventory_lots s) |- _ =>
        rewrite Forall_forall in H; specialize (H _ Hal) as [Hl _] end.
      unfold entry_below, res_below in *; cbn. split; [lia|].
      intros x Hx; injection Hx as <-; lia.
    + constructor; [|constructor]. unfold entry_below, res_below in *; cbn.
      split; [lia | discriminate].
  - apply Forall_map. eapply Forall_impl; [|eassumption].
    intros x Hx. destruct (Nat.eqb (res_id x) rid); [|eapply res_below_mono; [|eassumption]; lia].
    unfold res_below in *; cbn; lia.
  - assumption.
  - assumption.
  - rewrite set_issued_map by reflexivity. assumption.
  - assumption.
  - assumption.
  - assumption.
  - apply Forall_app; split; [assumption|]. apply Forall_app; split.
    + apply Forall_issue_entries. intros m a q Ha.
      exact (issue_loop_take_pos _ _ (a, q) Hpos Ha).
    + constructor; [cbn; exact Hq | constructor].
Qed.

Lemma update_lot_qc_status_wf (s : db) lid st :
  db_wf s -> db_wf (snd (update_lot_qc_status s lid st)).
Proof.
  unfold update_lot_qc_status. intros W.
  destruct (qc_status_eqb st QUARANTINE); [exact W|].
  destruct (find _ _); [|exact W]. cbn [snd].
  destruct W; constructor; cbn [items inventory_lots inventory_ledger reservations next_id];
    try assumption.
  - apply set_lot_qc_status_Forall; [|assumption]. unfold lot_below; cbn; auto.
  - rewrite set_lot_qc_status_map by reflexivity. assumption.
  - rewrite set_lot_qc_status_map by reflexivity. assumption.
  - apply set_lot_qc_status_Forall; [|assumption]. cbn; auto.
Qed.

Lemma step_wf (s : db) (q : request) : stock_inv s -> db_wf s -> db_wf (step s q).
Proof.
  intros Hi W. destruct q; cbn [step].
  - apply create_item_wf, W.
  - apply receive_inventory_wf, W.
  - apply reserve_inventory_wf, W.
  - apply issue_inventory_wf; assumption.
  - apply update_lot_qc_status_wf, W.
Qed.

Lemma reachable_wf (s : db) : reachable s -> db_wf s.
Proof.
  induction 1 as [|s q Hs IH].
  - constructor; cbn; constructor.
  - apply step_wf; [apply reachable_inv, Hs | exact IH].
Qed.

(** *** Reservations released by an issue *)

Lemma set_issued_notin (rid : nat) (rs : list reservation) :
  ~ In rid (map res_id rs) -> set_issued rid rs = rs.
Proof.
  induction rs as [|r rs IH]; cbn; intros H; [reflexivity|].
  destruct (Nat.eqb (res_id r) rid) eqn:E.
  - apply Nat.eqb_eq in E. exfalso. apply H. left. exact E.
  - f_equal. apply IH. intros Hin. apply H. right. exact Hin.
Qed.

(** With distinct reservation ids, issuing the OPEN reservation [r] releases
    exactly its quantity from its item's reserved total. *)
Lemma set_issued_exact (rid i : nat) (rs : list reservation) (r : reservation) :
  NoDup (map res_id rs) ->
  find (fun r => Nat.eqb (res_id r) rid) rs = Some r ->
  res_status r = OPEN ->
  open_reserved (set_issued rid rs) i
  = open_reserved rs i - (if Nat.eqb (res_item_id r) i then res_qty r else 0).
Proof.
  induction rs as [|a rs IH]; intros Hnd Hf Hst; cbn [find] in Hf; [discriminate|].
  inversion Hnd as [|? ? Hnotin Hnd']; subst.
  unfold set_issued; cbn [map]; fold (set_issued rid rs).
  unfold open_reserved in *; cbn [map]. rewrite !sumZ_cons.
  destruct (Nat.eqb (res_id a) rid) eqn:Hid.
  - injection Hf as <-. apply Nat.eqb_eq in Hid. subst rid.
    rewrite set_issued_notin by exact Hnotin.
    cbn [res_item_id res_status res_qty]. rewrite Hst.
    destruct (Nat.eqb (res_item_id a) i); cbn; lia.
  - rewrite (IH Hnd' Hf Hst). lia.
Qed.

Lemma reserve_balance_step (s : db) (q : request) :
  db_wf s -> reserve_balance s -> reserve_balance (step s q).
Proof.
  intros W Hb i. destruct q as [c n b|iid c x|iid x|rid|lid st]; cbn [step].
  - unfold create_item. destruct (existsb _ _); [apply Hb|]. exact (Hb i).
  - unfold receive_inventory. destruct (x <=? 0); [apply Hb|].
    destruct (get_item s iid); [|apply Hb]. destruct (existsb _ _); [apply Hb|].
    erewrite (ledger_sum_app RESERVE s _ i), (ledger_sum_app UNRESERVE s _ i)
      by (cbn; reflexivity).
    simpl_db. destruct (Nat.eqb iid i); cbn; rewrite <- (Hb i); lia.
  - unfold reserve_inventory. destruct (x <=? 0); [apply Hb|].
    destruct (get_item s iid); [|apply Hb]. destruct (_ <? x); [apply Hb|].
    destruct (get_available_lots s iid); [apply Hb|].
    erewrite (ledger_sum_app RESERVE s _ i), (ledger_sum_app UNRESERVE s _ i)
      by (cbn; reflexivity).
    simpl_db. rewrite open_reserved_app. unfold open_reserved at 2; simpl_db.
    cbn [res_item_id res_status res_qty].
    destruct (Nat.eqb iid i); cbn; rewrite <- (Hb i); lia.
  - destruct (issue_inventory s rid) as [[resp|e] s'] eqn:E; cbn [snd].
    2:{ unfold issue_inventory in E.
        destruct (find_reservation s rid); [|injection E as _ <-; apply Hb].
        destruct (negb _); [injection E as _ <-; apply Hb|].
        destruct (get_available_lots _ _); [injection E as _ <-; apply Hb|].
        destruct (_ <? _); [injection E as _ <-; apply Hb | discriminate]. }
    apply issue_inventory_ok in E
      as (r & lots & Hf & Hopen & Hlots & Hne & Htot & Hresp & ->).
    erewrite (ledger_sum_app RESERVE s _ i), (ledger_sum_app UNRESERVE s _ i)
      by (cbn; reflexivity).
    rewrite !map_app, !sumZ_app, !issue_entries_sum. simpl_db.
    rewrite (set_issued_exact rid i _ r (wf_res_nodup s W) Hf Hopen).
    rewrite <- (Hb i). destruct (Nat.eqb (res_item_id r) i); cbn; lia.
  - unfold update_lot_qc_status. destruct (qc_status_eqb st QUARANTINE); [apply Hb|].
    destruct (find _ _); [|apply Hb]. exact (Hb i).
Qed.

Lemma reachable_reserve_balance (s : db) : reachable s -> reserve_balance s.
Proof.
  induction 1 as [|s q Hs IH].
  - intro i. reflexivity.
  - apply reserve_balance_step; [apply reachable_wf, Hs | exact IH].
Qed.

(** *** Per-lot issued quantities *)

Lemma lot_issued_qty_app (s s' : db) (l : list ledger_entry) (lid : nat) :
  inventory_ledger s' = inventory_ledger s ++ l ->
  lot_issued_qty s' lid = lot_issued_qty s lid + lot_issued_qty (mkDb [] [] l [] 0) lid.
Proof. intros H. unfold lot_issued_qty. rewrite H, map_app, sumZ_app. reflexivity. Qed.



Lemma lot_issued_qty_noissue (l : list ledger_entry) (lid : nat) :
  Forall (fun e => led_txn_type e <> ISSUE) l -> lot_issued_qty (mkDb [] [] l [] 0) lid = 0.
Proof.
  unfold lot_issued_qty; cbn [inventory_ledger].
  induction 1 as [|e l He _ IH]; [reflexivity|]. cbn [map]. rewrite sumZ_cons, IH.
  destruct (led_lot_id e); [|reflexivity].
  destruct (led_txn_type e); try (rewrite andb_false_r; reflexivity). congruence.
Qed.











(** *** Fresh identifiers *)

Lemma find_snoc_fresh {A : Type} (f : A -> nat) (l : list A) (x : A) (n : nat) :
  Forall (fun y => (f y < n)%nat) l -> f x = n ->
  find (fun y => Nat.eqb (f y) n) (l ++ [x]) = Some x.
Proof.
  intros H Hx. induction H as [|y l Hy _ IH]; cbn.
  - rewrite Hx, Nat.eqb_refl. reflexivity.
  - destruct (Nat.eqb (f y) n) eqn:E; [apply Nat.eqb_eq in E; lia | exact IH].
Qed.

Lemma find_app_none {A : Type} (p : A -> bool) (l1 l2 : list A) :
  find p l1 = None -> find p (l1 ++ l2) = find p l2.
Proof.
  induction l1 as [|y l1 IH]; cbn; [reflexivity|].
  destruct (p y); [discriminate | exact IH].
Qed.

Lemma ledger_sum_fresh (t : txn_type) (s : db) (n : nat) :
  Forall (entry_below n) (inventory_ledger s) -> ledger_sum t s n = 0.
Proof.
  unfold ledger_sum. induction 1 as [|e l [He _] _ IH]; [reflexivity|].
  cbn [map]. rewrite sumZ_cons, IH. unfold entry_qty.
  destruct (Nat.eqb (led_item_id e) n) eqn:E; [apply Nat.eqb_eq in E; lia|]. reflexivity.
Qed.

Lemma open_reserved_fresh (rs : list reservation) (n : nat) :
  Forall (res_below n) rs -> open_reserved rs n = 0.
Proof.
  unfold open_reserved. induction 1 as [|r l [_ Hr] _ IH]; [reflexivity|].
  cbn [map]. rewrite sumZ_cons, IH.
  destruct (Nat.eqb (res_item_id r) n) eqn:E; [apply Nat.eqb_eq in E; lia|]. reflexivity.
Qed.

Lemma get_available_lots_ext (s s' : db) (iid : nat) :
  inventory_lots s' = inventory_lots s ->
  (forall lid, lot_issued_qty s' lid = lot_issued_qty s lid) ->
  get_available_lots s' iid = get_available_lots s iid.
Proof.
  intros Hl Hi. unfold get_available_lots. rewrite Hl. f_equal. f_equal.
  apply map_ext. intros l. rewrite Hi. reflexivity.
Qed.

Lemma find_set_issued_any (rid rid' : nat) (rs : list reservation) :
  find (fun r => Nat.eqb (res_id r) rid') (set_issued rid rs)
  = option_map (fun r => if Nat.eqb (res_id r) rid
                         then mkReservation (res_id r) (res_item_id r) (res_qty r) ISSUED
                         else r)
               (find (fun r => Nat.eqb (res_id r) rid') rs).
Proof.
  induction rs as [|r rs IH]; cbn; [reflexivity|].
  destruct (Nat.eqb (res_id r) rid) eqn:E, (Nat.eqb (res_id r) rid') eqn:E';
    cbn; rewrite ?E, ?E'; cbn; rewrite ?E; auto.
Qed.

(** ** Properties of reachable states and of the endpoints *)

(** Keys: in every reachable state the item ids, item codes, lot ids, lot
    codes and reservation ids are pairwise distinct (PRIMARY KEY and UNIQUE
    columns of [init_db]; the duplicate-code paths of [create_item] and
    [receive_inventory] reject a second row). *)
Theorem reachable_unique_keys (s : db) :
  reachable s ->
  NoDup (map item_id (items s)) /\ NoDup (map item_code (items s))
  /\ NoDup (map lot_id (inventory_lots s)) /\ NoDup (map lot_code (inventory_lots s))
  /\ NoDup (map res_id (reservations s)).
Proof.
  intros Hs. destruct (reachable_wf s Hs). repeat split; assumption.
Qed.

Lemma reachable_unique_keys_witness :
  reachable scenario_dup
  /\ NoDup (map item_id (items scenario_dup)) /\ NoDup (map item_code (items scenario_dup))
  /\ NoDup (map lot_id (inventory_lots scenario_dup))
  /\ NoDup (map lot_code (inventory_lots scenario_dup))
  /\ NoDup (map res_id (reservations scenario_dup)).
Proof.
  assert (Hs : reachable scenario_dup)
    by (unfold scenario_dup, run; cbn [fold_left]; repeat constructor).
  split; [exact Hs | exact (reachable_unique_keys scenario_dup Hs)].
Defined.

(** Quantities: in every reachable state each lot received a positive
    quantity, each ledger row carries a positive quantity (RECEIVE and
    RESERVE through [Field(gt=0)], ISSUE through the loop's [min] over
    positive availabilities, UNRESERVE through the reserved quantity), and
    each reservation holds a positive quantity. *)
Theorem reachable_positive_quantities (s : db) :
  reachable s ->
  Forall (fun l => 0 < received_qty l) (inventory_lots s)
  /\ Forall (fun e => 0 < led_qty e) (inventory_ledger s)
  /\ Forall (fun r => 0 < res_qty r) (reservations s).
Proof.
  intros Hs. destruct (reachable_wf s Hs). destruct (reachable_inv s Hs).
  repeat split; assumption.
Qed.

Lemma reachable_positive_quantities_witness :
  reachable scenario_exhausted
  /\ Forall (fun l => 0 < received_qty l) (inventory_lots scenario_exhausted)
  /\ Forall (fun e => 0 < led_qty e) (inventory_ledger scenario_exhausted)
  /\ Forall (fun r => 0 < res_qty r) (reservations scenario_exhausted).
Proof.
  assert (Hs : reachable scenario_exhausted)
    by (unfold scenario_exhausted, run; cbn [fold_left]; repeat constructor).
  split; [exact Hs | exact (reachable_positive_quantities scenario_exhausted Hs)].
Defined.

(** [create_item] in a reachable state: the new item gets a fresh id, is the
    row [get_item] returns for that id, starts with an all-zero stock
    summary, and no item's stock changes. *)
Theorem create_item_fresh (s : db) (c n : string) (b : bool) (it : item) :
  reachable s -> fst (create_item s c n b) = Ok it ->
  item_id it = next_id s /\ item_code it = c /\ item_name it = n /\ item_qc_required it = b
  /\ get_item (snd (create_item s c n b)) (item_id it) = Some it
  /\ get_stock_summary (snd (create_item s c n b)) (item_id it) = Ok (mkSummary 0 0 0)
  /\ (forall j, calculate_stock (snd (create_item s c n b)) j = calculate_stock s j).
Proof.
  intros Hs H. pose proof (reachable_wf s Hs) as W.
  unfold create_item in *. destruct (existsb _ _); [discriminate|].
  injection H as <-. cbn [snd item_id item_code item_name item_qc_required].
  assert (Hg : get_item (mkDb (items s ++ [mkItem (next_id s) c n b]) (inventory_lots s)
                              (inventory_ledger s) (reservations s) (S (next_id s)))
                        (next_id s) = Some (mkItem (next_id s) c n b)).
  { unfold get_item. cbn [items]. apply find_snoc_fresh; [apply (wf_item_ids s W) | reflexivity]. }
  split; [reflexivity|]. split; [reflexivity|]. split; [reflexivity|]. split; [reflexivity|].
  split; [exact Hg|]. split.
  - unfold get_stock_summary. rewrite Hg. f_equal.
    unfold calculate_stock. cbn [reservations].
    rewrite !(ledger_sum_fresh _ _ (next_id s)) by exact (wf_ledger_refs s W).
    rewrite (open_reserved_fresh _ (next_id s)) by exact (wf_res_ids s W).
    reflexivity.
  - intros j. apply calculate_stock_ext; reflexivity.
Qed.

Lemma create_item_fresh_witness :
  reachable scenario_summary
  /\ fst (create_item scenario_summary "ITEM-2" "Gadget" true)
     = Ok (mkItem 5 "ITEM-2" "Gadget" true)
  /\ get_stock_summary (snd (create_item scenario_summary "ITEM-2" "Gadget" true)) 5
     = Ok (mkSummary 0 0 0).
Proof.
  assert (Hs : reachable scenario_summary)
    by (unfold scenario_summary, run; cbn [fold_left]; repeat constructor).
  assert (Hc : fst (create_item scenario_summary "ITEM-2" "Gadget" true)
               = Ok (mkItem 5 "ITEM-2" "Gadget" true)) by (vm_compute; reflexivity).
  split; [exact Hs|]. split; [exact Hc|].
  exact (proj1 (proj2 (proj2 (proj2 (proj2 (proj2
           (create_item_fresh _ _ _ _ _ Hs Hc))))))).
Defined.

(** [create_item] fails exactly when an item with the same code exists,
    with DUPLICATE_ITEM_CODE, and then writes nothing; it never touches
    lots, ledger or reservations. *)
Theorem create_item_duplicate (s : db) (c n : string) (b : bool) :
  (fst (create_item s c n b) = Err DUPLICATE_ITEM_CODE
   <-> exists it, In it (items s) /\ item_code it = c)
  /\ (forall e, fst (create_item s c n b) = Err e -> snd (create_item s c n b) = s)
  /\ inventory_lots (snd (create_item s c n b)) = inventory_lots s
  /\ inventory_ledger (snd (create_item s c n b)) = inventory_ledger s
  /\ reservations (snd (create_item s c n b)) = reservations s.
Proof.
  unfold create_item. destruct (existsb _ _) eqn:Ex; cbn [fst snd].
  - apply existsb_exists in Ex as [it [Hin Hc]]. apply String.eqb_eq in Hc.
    repeat split; auto. intros _. exists it. auto.
  - repeat split; try reflexivity; try discriminate.
    intros (it & Hin & Hc). exfalso.
    apply (existsb_false_not_In item_code _ _ Ex). rewrite <- Hc. apply in_map, Hin.
Qed.

Lemma create_item_duplicate_witness :
  (exists it, In it (items scenario_dup) /\ item_code it = "ITEM-1"%string)
  /\ fst (create_item scenario_dup "ITEM-1" "Other" false) = Err DUPLICATE_ITEM_CODE
  /\ snd (create_item scenario_dup "ITEM-1" "Other" false) = scenario_dup.
Proof.
  assert (Hex : exists it, In it (items scenario_dup) /\ item_code it = "ITEM-1"%string)
    by (exists (mkItem 0 "ITEM-1" "Widget" false); split; [vm_compute; left | ]; reflexivity).
  destruct (create_item_duplicate scenario_dup "ITEM-1" "Other" false) as [[_ Hiff] [Hs _]].
  split; [exact Hex|]. split; [exact (Hiff Hex) | exact (Hs _ (Hiff Hex))].
Defined.

(** *** Stock deltas of reserve and issue *)

Lemma reserve_inventory_ok (s : db) (iid : nat) (qty : Z) (rid : nat) :
  fst (reserve_inventory s iid qty) = Ok rid ->
  0 < qty /\ get_item s iid <> None /\ qty <= available (calculate_stock s iid)
  /\ get_available_lots s iid <> [] /\ rid = next_id s
  /\ snd (reserve_inventory s iid qty)
     = mkDb (items s) (inventory_lots s)
            (inventory_ledger s ++ [mkEntry (S (next_id s)) iid None RESERVE qty (Some (next_id s))])
            (reservations s ++ [mkReservation (next_id s) iid qty OPEN])
            (S (S (next_id s))).
Proof.
  unfold reserve_inventory. intros H.
  destruct (qty <=? 0) eqn:Hq; [discriminate|].
  destruct (get_item s iid); [|discriminate].
  destruct (_ <? qty) eqn:Hav; [discriminate|].
  destruct (get_available_lots s iid); [discriminate|].
  injection H as <-. apply Z.leb_gt in Hq. apply Z.ltb_ge in Hav.
  repeat split; auto; discriminate.
Qed.

Lemma open_reserved_single (r : reservation) (i : nat) :
  open_reserved [r] i
  = if Nat.eqb (res_item_id r) i && res_status_eqb (res_status r) OPEN then res_qty r else 0.
Proof. unfold open_reserved. cbn [map]. rewrite sumZ_cons, sumZ_nil. lia. Qed.

Lemma reserve_stock_delta (s : db) (iid : nat) (qty : Z) (rid : nat) :
  db_wf s -> fst (reserve_inventory s iid qty) = Ok rid ->
  rid = next_id s
  /\ find_reservation (snd (reserve_inventory s iid qty)) rid
     = Some (mkReservation rid iid qty OPEN)
  /\ calculate_stock (snd (reserve_inventory s iid qty)) iid
     = mkSummary (on_hand (calculate_stock s iid)) (reserved (calculate_stock s iid) + qty)
                 (available (calculate_stock s iid) - qty)
  /\ (forall j, j <> iid ->
        calculate_stock (snd (reserve_inventory s iid qty)) j = calculate_stock s j)
  /\ (forall j, get_available_lots (snd (reserve_inventory s iid qty)) j
                = get_available_lots s j).
Proof.
  intros W H. apply reserve_inventory_ok in H as (Hq & Hi & Hav & Hne & -> & ->).
  split; [reflexivity|]. split.
  { unfold find_reservation. cbn [reservations].
    apply find_snoc_fresh with (f := res_id); [|reflexivity].
    eapply Forall_impl; [|exact (wf_res_ids s W)]. intros r [Hr _]; exact Hr. }
  split; [|split].
  - unfold calculate_stock. cbn [on_hand reserved available reservations].
    erewrite (ledger_sum_app RECEIVE s _ iid), (ledger_sum_app ISSUE s _ iid)
      by (cbn; reflexivity).
    simpl_db. rewrite open_reserved_app, open_reserved_single.
    cbn [res_item_id res_status res_qty]. rewrite Nat.eqb_refl.
    cbn [andb res_status_eqb on_hand reserved available]. f_equal; lia.
  - intros j Hj. assert (E : Nat.eqb iid j = false) by (apply Nat.eqb_neq; congruence).
    unfold calculate_stock. cbn [reservations].
    erewrite (ledger_sum_app RECEIVE s _ j), (ledger_sum_app ISSUE s _ j)
      by (cbn; reflexivity).
    simpl_db. rewrite open_reserved_app, open_reserved_single.
    cbn [res_item_id res_status res_qty]. rewrite E. cbn [andb]. f_equal; lia.
  - intros j. apply get_available_lots_ext; [reflexivity|]. intros lid.
    erewrite (lot_issued_qty_app s _ _ lid) by (cbn; reflexivity).
    rewrite lot_issued_qty_noissue by (constructor; [discriminate | constructor]). lia.
Qed.

Lemma issue_stock_delta (s : db) (rid : nat) (resp : issue_response) :
  stock_inv s -> db_wf s -> fst (issue_inventory s rid) = Ok resp ->
  calculate_stock (snd (issue_inventory s rid)) (ir_item_id resp)
  = mkSummary (on_hand (calculate_stock s (ir_item_id resp)) - ir_qty resp)
              (reserved (calculate_stock s (ir_item_id resp)) - ir_qty resp)
              (available (calculate_stock s (ir_item_id resp)))
  /\ (forall j, j <> ir_item_id resp ->
        calculate_stock (snd (issue_inventory s rid)) j = calculate_stock s j).
Proof.
  intros [_ Hr] W H.
  destruct (issue_inventory s rid) as [o s'] eqn:E. cbn [fst] in H. subst o. cbn [snd].
  apply issue_inventory_ok in E as (r & lots & Hf & Hopen & Hlots & Hne & Htot & -> & ->).
  cbn [ir_item_id ir_qty].
  assert (Hq : 0 < res_qty r).
  { unfold find_reservation in Hf. apply find_some in Hf as [Hin _].
    rewrite Forall_forall in Hr. auto. }
  pose proof (get_available_lots_pos s (res_item_id r)) as Hpos. rewrite Hlots in Hpos.
  assert (Hsum : sumZ (map snd (issue_loop lots (res_qty r))) = res_qty r).
  { rewrite issue_loop_sum; [lia | lia |].
    eapply Forall_impl; [|exact Hpos]. cbv beta; intros; lia. }
  assert (Hgen : forall j, calculate_stock
            (mkDb (items s) (inventory_lots s)
               (inventory_ledger s
                  ++ issue_entries (next_id s) (res_item_id r) rid (issue_loop lots (res_qty r))
                  ++ [mkEntry (next_id s + List.length (issue_loop lots (res_qty r)))
                        (res_item_id r) None UNRESERVE (res_qty r) (Some rid)])
               (set_issued rid (reservations s))
               (S (next_id s + List.length (issue_loop lots (res_qty r))))) j
          = mkSummary (on_hand (calculate_stock s j) - (if Nat.eqb (res_item_id r) j then res_qty r else 0))
                      (reserved (calculate_stock s j) - (if Nat.eqb (res_item_id r) j then res_qty r else 0))
                      (available (calculate_stock s j))).
  { intros j. unfold calculate_stock. cbn [on_hand reserved available reservations].
    erewrite (ledger_sum_app RECEIVE s _ j), (ledger_sum_app ISSUE s _ j)
      by (cbn; reflexivity).
    rewrite !map_app, !sumZ_app, !issue_entries_sum, Hsum. simpl_db.
    rewrite (set_issued_exact rid j _ r (wf_res_nodup s W) Hf Hopen).
    destruct (Nat.eqb (res_item_id r) j); cbn; f_equal; lia. }
  split.
  - rewrite Hgen, Nat.eqb_refl. reflexivity.
  - intros j Hj. rewrite Hgen.
    assert (E : Nat.eqb (res_item_id r) j = false) by (apply Nat.eqb_neq; congruence).
    rewrite E. destruct (calculate_stock s j); cbn. f_equal; lia.
Qed.

Lemma issue_inventory_succeeds (s : db) (rid : nat) (r : reservation) :
  find_reservation s rid = Some r -> res_status r = OPEN ->
  get_available_lots s (res_item_id r) <> [] ->
  res_qty r <= sumZ (map al_available (get_available_lots s (res_item_id r))) ->
  exists resp, fst (issue_inventory s rid) = Ok resp
               /\ ir_item_id resp = res_item_id r /\ ir_qty resp = res_qty r.
Proof.
  intros Hf Hst Hne Htot. unfold issue_inventory. rewrite Hf, Hst. cbn [negb res_status_eqb].
  destruct (get_available_lots s (res_item_id r)) as [|a l]; [congruence|].
  destruct (_ <? _) eqn:E; [apply Z.ltb_lt in E; lia|].
  eexists. split; [reflexivity|]. split; reflexivity.
Qed.

(** *** Lot QC updates, error paths and history *)

Lemma set_lot_qc_status_In (lid : nat) (st : qc_status) (ls : list lot) (l : lot) :
  In l (set_lot_qc_status lid st ls) -> lot_id l = lid -> lot_qc_status l = st.
Proof.
  unfold set_lot_qc_status. intros Hin Hid. apply in_map_iff in Hin as [x [<- Hx]].
  destruct (Nat.eqb (lot_id x) lid) eqn:E; [reflexivity|].
  cbn in Hid. apply Nat.eqb_neq in E. contradiction.
Qed.

(** [update_lot_qc_status]: a lot set to REJECTED is never again offered to
    reserve or issue (until a later update approves it), and a QC update
    changes no stock summary; the update fails with LOT_NOT_FOUND exactly
    when no lot has the id. *)
Theorem update_lot_qc_status_effects (s : db) (lid : nat) (st : qc_status) :
  st <> QUARANTINE ->
  (fst (update_lot_qc_status s lid st) = Err LOT_NOT_FOUND
   <-> forall l, In l (inventory_lots s) -> lot_id l <> lid)
  /\ (forall j, calculate_stock (snd (update_lot_qc_status s lid st)) j = calculate_stock s j)
  /\ (st = REJECTED -> forall j a, In a (get_available_lots (snd (update_lot_qc_status s lid st)) j) ->
        lot_id (al_lot a) <> lid).
Proof.
  intros Hst. unfold update_lot_qc_status.
  assert (Hq : qc_status_eqb st QUARANTINE = false)
    by (destruct st; [reflexivity | exfalso; congruence | reflexivity]).
  rewrite Hq.
  destruct (find (fun l => Nat.eqb (lot_id l) lid) (inventory_lots s)) as [l|] eqn:Hf;
    cbn [fst snd].
  - apply find_some in Hf as [Hin Hid]. apply Nat.eqb_eq in Hid.
    split; [split; [discriminate | intros H; exfalso; exact (H l Hin Hid)]|].
    split; [intros j; apply calculate_stock_ext; reflexivity|].
    intros -> j a Ha Hid'.
    apply get_available_lots_spec in Ha as (Hin' & _ & Hap & _).
    cbn [inventory_lots] in Hin'.
    rewrite (set_lot_qc_status_In _ _ _ _ Hin' Hid') in Hap. discriminate.
  - split; [split; [intros _ l Hin Hid | reflexivity]|].
    + pose proof (find_none _ _ Hf l Hin) as H. cbn in H.
      rewrite Hid, Nat.eqb_refl in H. discriminate.
    + split; [reflexivity|]. intros -> j a Ha Hid'.
      apply get_available_lots_spec in Ha as (Hin' & _).
      pose proof (find_none _ _ Hf _ Hin') as H. cbv beta in H.
      rewrite Hid', Nat.eqb_refl in H. discriminate.
Qed.

Lemma update_lot_qc_status_effects_witness :
  REJECTED <> QUARANTINE
  /\ (forall j a, In a (get_available_lots (snd (update_lot_qc_status scenario_summary 1 REJECTED)) j) ->
        lot_id (al_lot a) <> 1%nat)
  /\ calculate_stock (snd (update_lot_qc_status scenario_summary 1 REJECTED)) 0
     = calculate_stock scenario_summary 0.
Proof.
  assert (H : REJECTED <> QUARANTINE) by discriminate.
  destruct (update_lot_qc_status_effects scenario_summary 1 REJECTED H) as (_ & Hc & Hr).
  split; [exact H|]. split; [exact (Hr eq_refl) | exact (Hc 0%nat)].
Defined.

(** Unknown identifiers: for a positive quantity, receive, reserve and the
    stock summary of an item that does not exist fail with ITEM_NOT_FOUND;
    issuing a reservation id that does not exist fails with
    RESERVATION_NOT_FOUND; a QC update of a lot id that does not exist fails
    with LOT_NOT_FOUND; none of them writes anything. *)
Theorem unknown_ids (s : db) (iid rid lid : nat) (c : string) (qty : Z) (st : qc_status) :
  0 < qty -> st <> QUARANTINE ->
  get_item s iid = None -> find_reservation s rid = None ->
  find (fun l => Nat.eqb (lot_id l) lid) (inventory_lots s) = None ->
  receive_inventory s iid c qty = (Err ITEM_NOT_FOUND, s)
  /\ reserve_inventory s iid qty = (Err ITEM_NOT_FOUND, s)
  /\ get_stock_summary s iid = Err ITEM_NOT_FOUND
  /\ issue_inventory s rid = (Err RESERVATION_NOT_FOUND, s)
  /\ update_lot_qc_status s lid st = (Err LOT_NOT_FOUND, s).
Proof.
  intros Hq Hst Hi Hr Hl.
  assert (Hq' : (qty <=? 0) = false) by (apply Z.leb_gt; exact Hq).
  assert (Hs : qc_status_eqb st QUARANTINE = false)
    by (destruct st; [reflexivity | exfalso; congruence | reflexivity]).
  unfold receive_inventory, reserve_inventory, get_stock_summary, issue_inventory,
    update_lot_qc_status.
  rewrite Hq', Hi, Hr, Hs, Hl. repeat split.
Qed.

Lemma unknown_ids_witness :
  receive_inventory scenario_summary 9 "LOT-X" 5 = (Err ITEM_NOT_FOUND, scenario_summary)
  /\ reserve_inventory scenario_summary 9 5 = (Err ITEM_NOT_FOUND, scenario_summary)
  /\ get_stock_summary scenario_summary 9 = Err ITEM_NOT_FOUND
  /\ issue_inventory scenario_summary 9 = (Err RESERVATION_NOT_FOUND, scenario_summary)
  /\ update_lot_qc_status scenario_summary 9 APPROVED = (Err LOT_NOT_FOUND, scenario_summary).
Proof.
  apply unknown_ids; [lia | discriminate | vm_compute; reflexivity
                     | vm_compute; reflexivity | vm_compute; reflexivity].
Defined.

(** Request validation comes first: a non-positive quantity is refused by
    receive and reserve with the validation error, and a QC update to
    QUARANTINE likewise, whatever the item, lot code or lot, and nothing is
    written. *)
Theorem validation_first (s : db) (iid lid : nat) (c : string) (qty : Z) :
  qty <= 0 ->
  receive_inventory s iid c qty = (Err REQUEST_VALIDATION_ERROR, s)
  /\ reserve_inventory s iid qty = (Err REQUEST_VALIDATION_ERROR, s)
  /\ update_lot_qc_status s lid QUARANTINE = (Err REQUEST_VALIDATION_ERROR, s).
Proof.
  intros Hq. apply Z.leb_le in Hq.
  unfold receive_inventory, reserve_inventory, update_lot_qc_status. rewrite Hq.
  repeat split.
Qed.

Lemma validation_first_witness :
  receive_inventory scenario_summary 0 "LOT-001" 0 = (Err REQUEST_VALIDATION_ERROR, scenario_summary)
  /\ reserve_inventory scenario_summary 0 (-5) = (Err REQUEST_VALIDATION_ERROR, scenario_summary)
  /\ update_lot_qc_status scenario_summary 1 QUARANTINE
     = (Err REQUEST_VALIDATION_ERROR, scenario_summary).
Proof.
  split; [exact (proj1 (validation_first scenario_summary 0 1 "LOT-001" 0 ltac:(lia)))|].
  exact (proj2 (validation_first scenario_summary 0 1 "LOT-001" (-5) ltac:(lia))).
Defined.

Lemma issue_inventory_err (s : db) (rid : nat) (e : error_code) (s' : db) :
  issue_inventory s rid = (Err e, s') -> s' = s.
Proof.
  unfold issue_inventory. intros E.
  destruct (find_reservation s rid); [|injection E as _ <-; reflexivity].
  destruct (negb _); [injection E as _ <-; reflexivity|].
  destruct (get_available_lots _ _); [injection E as _ <-; reflexivity|].
  destruct (_ <? _); [injection E as _ <-; reflexivity | discriminate].
Qed.

(** The history is append-only: a request only appends ledger rows, items,
    lots and reservations; a lot's id, item, code and received quantity and
    a reservation's id, item and quantity are never rewritten; the id
    counter never goes back. *)
Theorem step_append_only (s : db) (q : request) :
  (exists new, inventory_ledger (step s q) = inventory_ledger s ++ new)
  /\ (exists new, items (step s q) = items s ++ new)
  /\ (exists new, map (fun l => (lot_id l, lot_item_id l, lot_code l, received_qty l))
                      (inventory_lots (step s q))
                  = map (fun l => (lot_id l, lot_item_id l, lot_code l, received_qty l))
                        (inventory_lots s) ++ new)
  /\ (exists new, map (fun r => (res_id r, res_item_id r, res_qty r)) (reservations (step s q))
                  = map (fun r => (res_id r, res_item_id r, res_qty r)) (reservations s) ++ new)
  /\ (next_id s <= next_id (step s q))%nat.
Proof.
  assert (Hsame : forall s', s' = s ->
    (exists new, inventory_ledger s' = inventory_ledger s ++ new)
    /\ (exists new, items s' = items s ++ new)
    /\ (exists new, map (fun l => (lot_id l, lot_item_id l, lot_code l, received_qty l))
                        (inventory_lots s')
                    = map (fun l => (lot_id l, lot_item_id l, lot_code l, received_qty l))
                          (inventory_lots s) ++ new)
    /\ (exists new, map (fun r => (res_id r, res_item_id r, res_qty r)) (reservations s')
                    = map (fun r => (res_id r, res_item_id r, res_qty r)) (reservations s) ++ new)
    /\ (next_id s <= next_id s')%nat).
  { intros s' ->. repeat split; try (exists []; rewrite app_nil_r; reflexivity). lia. }
  destruct q as [c n b|iid c x|iid x|rid|lid st]; cbn [step].
  - unfold create_item. destruct (existsb _ _); [apply Hsame; reflexivity|]. cbn.
    split; [exists []; rewrite app_nil_r; reflexivity|].
    split; [eexists; reflexivity|].
    split; [exists []; rewrite app_nil_r; reflexivity|].
    split; [exists []; rewrite app_nil_r; reflexivity | lia].
  - unfold receive_inventory. destruct (x <=? 0); [apply Hsame; reflexivity|].
    destruct (get_item s iid); [|apply Hsame; reflexivity].
    destruct (existsb _ _); [apply Hsame; reflexivity|]. cbn [snd].
    split; [eexists; reflexivity|].
    split; [exists []; rewrite app_nil_r; reflexivity|].
    split; [cbn [inventory_lots]; rewrite map_app; eexists; reflexivity|].
    split; [exists []; rewrite app_nil_r; reflexivity | cbn; lia].
  - unfold reserve_inventory. destruct (x <=? 0); [apply Hsame; reflexivity|].
    destruct (get_item s iid); [|apply Hsame; reflexivity].
    destruct (_ <? x); [apply Hsame; reflexivity|].
    destruct (get_available_lots s iid); [apply Hsame; reflexivity|]. cbn [snd].
    split; [eexists; reflexivity|].
    split; [exists []; rewrite app_nil_r; reflexivity|].
    split; [exists []; rewrite app_nil_r; reflexivity|].
    split; [cbn [reservations]; rewrite map_app; eexists; reflexivity | cbn; lia].
  - destruct (issue_inventory s rid) as [[resp|e] s'] eqn:E; cbn [snd].
    2:{ apply Hsame. exact (issue_inventory_err _ _ _ _ E). }
    apply issue_inventory_ok in E as (r & lots & _ & _ & _ & _ & _ & _ & ->).
    cbn [inventory_ledger items inventory_lots reservations next_id].
    split; [eexists; reflexivity|].
    split; [exists []; rewrite app_nil_r; reflexivity|].
    split; [exists []; rewrite app_nil_r; reflexivity|].
    split; [exists []; rewrite app_nil_r; apply set_issued_map; reflexivity | lia].
  - unfold update_lot_qc_status. destruct (qc_status_eqb st QUARANTINE); [apply Hsame; reflexivity|].
    destruct (find _ _); [|apply Hsame; reflexivity]. cbn [snd].
    split; [exists []; rewrite app_nil_r; reflexivity|].
    split; [exists []; rewrite app_nil_r; reflexivity|].
    split; [exists []; rewrite app_nil_r; apply set_lot_qc_status_map; reflexivity|].
    split; [exists []; rewrite app_nil_r; reflexivity | cbn; lia].
Qed.

(** A reservation's status only ever moves from OPEN to ISSUED: after any
    request an existing reservation is unchanged, or it was OPEN and is now
    the same reservation with status ISSUED. *)
Theorem reservation_status_monotone (s : db) (q : request) (rid : nat) (r : reservation) :
  find_reservation s rid = Some r ->
  find_reservation (step s q) rid = Some r
  \/ (res_status r = OPEN
      /\ find_reservation (step s q) rid
         = Some (mkReservation (res_id r) (res_item_id r) (res_qty r) ISSUED)).
Proof.
  intros Hf. pose proof Hf as Hf0. unfold find_reservation in *.
  destruct q as [c n b|iid c x|iid x|rid'|lid st]; cbn [step].
  - left. unfold create_item. destruct (existsb _ _); exact Hf.
  - left. unfold receive_inventory. destruct (x <=? 0); [exact Hf|].
    destruct (get_item s iid); [|exact Hf]. destruct (existsb _ _); exact Hf.
  - left. unfold reserve_inventory. destruct (x <=? 0); [exact Hf|].
    destruct (get_item s iid); [|exact Hf]. destruct (_ <? x); [exact Hf|].
    destruct (get_available_lots s iid); [exact Hf|]. apply find_app_some, Hf.
  - destruct (issue_inventory s rid') as [[resp|e] s'] eqn:E; cbn [snd].
    2:{ left. rewrite (issue_inventory_err _ _ _ _ E). exact Hf. }
    apply issue_inventory_ok in E as (r0 & lots & Hf' & Hopen & _ & _ & _ & _ & ->).
    cbn [reservations]. rewrite find_set_issued_any, Hf. cbn [option_map].
    destruct (Nat.eqb (res_id r) rid') eqn:E; [right | left; reflexivity].
    apply find_some in Hf0 as [_ Hid]. apply Nat.eqb_eq in Hid, E.
    unfold find_reservation in Hf'. rewrite <- E, Hid, Hf in Hf'. injection Hf' as <-.
    split; [exact Hopen | reflexivity].
  - left. unfold update_lot_qc_status. destruct (qc_status_eqb st QUARANTINE); [exact Hf|].
    destruct (find (fun l => Nat.eqb (lot_id l) lid) (inventory_lots s)); exact Hf.
Qed.

Lemma reservation_status_monotone_witness :
  find_reservation scenario_summary 3 = Some (mkReservation 3 0 30 OPEN)
  /\ (find_reservation (step scenario_summary (ReqIssue 3)) 3 = Some (mkReservation 3 0 30 OPEN)
      \/ (res_status (mkReservation 3 0 30 OPEN) = OPEN
          /\ find_reservation (step scenario_summary (ReqIssue 3)) 3
             = Some (mkReservation 3 0 30 ISSUED))).
Proof.
  assert (Hf : find_reservation scenario_summary 3 = Some (mkReservation 3 0 30 OPEN))
    by (vm_compute; reflexivity).
  split; [exact Hf | exact (reservation_status_monotone _ (ReqIssue 3) _ _ Hf)].
Defined.

(** *** [verify_logic.py] against [app.py] *)

(** Every reserve [app.py] accepts, [verify_logic.py] accepts with the same
    writes; the converse fails: with its only approved lot used up,
    [app.py] refuses with NO_QC_APPROVED_LOT a reserve that
    [verify_logic.py] accepts (it counts APPROVED lots whatever their
    stock), and [verify_logic.py] accepts a zero quantity. *)
Theorem vl_reserve_inventory_vs_app :
  (forall s iid qty rid, fst (reserve_inventory s iid qty) = Ok rid ->
     vl_reserve_inventory s iid qty = reserve_inventory s iid qty)
  /\ (exists rid, fst (vl_reserve_inventory scenario_exhausted 0 10) = Ok rid)
  /\ fst (reserve_inventory scenario_exhausted 0 10) = Err NO_QC_APPROVED_LOT
  /\ (exists rid, fst (vl_reserve_inventory scenario_summary 0 0) = Ok rid)
  /\ fst (reserve_inventory scenario_summary 0 0) = Err REQUEST_VALIDATION_ERROR.
Proof.
  split; [|repeat split; try (eexists; vm_compute; reflexivity); vm_compute; reflexivity].
  intros s iid qty rid H.
  pose proof (reserve_inventory_ok s iid qty rid H) as (Hq & Hi & Hav & Hne & Hrid & Hs).
  rewrite (surjective_pairing (reserve_inventory s iid qty)), H, Hs, Hrid.
  unfold vl_reserve_inventory.
  destruct (_ <? qty) eqn:E; [apply Z.ltb_lt in E; lia|].
  destruct (Nat.eqb (List.length _) 0) eqn:Hc; [|reflexivity].
  exfalso. apply Nat.eqb_eq, length_zero_iff_nil in Hc.
  destruct (get_available_lots s iid) as [|a l] eqn:Hg; [congruence|].
  assert (Ha : In a (get_available_lots s iid)) by (rewrite Hg; left; reflexivity).
  apply get_available_lots_spec in Ha as (Hin & Hiid & Hst & _).
  assert (Hf : In (al_lot a) (filter (fun l => Nat.eqb (lot_item_id l) iid
                                               && qc_status_eqb (lot_qc_status l) APPROVED)
                                     (inventory_lots s))).
  { apply filter_In. split; [exact Hin|]. rewrite Hiid, Hst, Nat.eqb_refl. reflexivity. }
  rewrite Hc in Hf. destruct Hf.
Qed.

Lemma vl_reserve_inventory_vs_app_witness :
  fst (reserve_inventory scenario_summary 0 40) = Ok 5%nat
  /\ vl_reserve_inventory scenario_summary 0 40 = reserve_inventory scenario_summary 0 40.
Proof.
  assert (H : fst (reserve_inventory scenario_summary 0 40) = Ok 5%nat)
    by (vm_compute; reflexivity).
  split; [exact H | exact (proj1 vl_reserve_inventory_vs_app _ _ _ _ H)].
Defined.

(** [verify_logic.py]'s [issue_inventory] writes exactly what [app.py]'s
    does, fails with the same error codes, and returns the same lines
    without their lot ids. *)
Theorem vl_issue_inventory_same_writes (s : db) (rid : nat) :
  snd (vl_issue_inventory s rid) = snd (issue_inventory s rid)
  /\ fst (vl_issue_inventory s rid)
     = match fst (issue_inventory s rid) with
       | Ok resp => Ok (map (fun ln => (il_lot_code ln, il_qty ln)) (lots_issued resp))
       | Err e => Err e
       end.
Proof.
  unfold vl_issue_inventory, issue_inventory.
  destruct (find_reservation s rid) as [r|]; [|split; reflexivity].
  destruct (negb _); [split; reflexivity|].
  destruct (get_available_lots s (res_item_id r)) as [|a l]; [split; reflexivity|].
  destruct (_ <? _); [split; reflexivity|].
  split; [reflexivity|]. cbn [fst lots_issued]. rewrite map_map. reflexivity.
Qed.

(** *** Item stock against lot stock *)












Lemma sumZ_map_sub {A : Type} (f g : A -> Z) (l : list A) :
  sumZ (map (fun x => f x - g x) l) = sumZ (map f l) - sumZ (map g l).
Proof. induction l as [|x l IH]; cbn [map]; rewrite ?sumZ_cons, ?IH; [reflexivity | lia]. Qed.

(** ** Exact arithmetic on whole quantities *)

Lemma digits2_pos_size (p : positive) : digits2_pos p = Pos.size p.
Proof. induction p; cbn; congruence. Qed.

Lemma iter_pos_iter {A : Type} (f : A -> A) (p : positive) (x : A) :
  iter_pos f p x = Pos.iter f x p.
Proof.
  revert x; induction p as [p IH|p IH|]; intro x; cbn.
  - rewrite !IH, Pos.iter_swap, Pos.iter_swap. reflexivity.
  - rewrite !IH. reflexivity.
  - reflexivity.
Qed.

Lemma Zpos_iter_xO (p n : positive) : Zpos (Pos.iter xO p n) = Zpos p * 2 ^ Zpos n.
Proof.
  induction n using Pos.peano_ind.
  - cbn. lia.
  - rewrite Pos.iter_succ, Pos2Z.inj_xO, IHn, Pos2Z.inj_succ, Z.pow_succ_r by lia. lia.
Qed.

Lemma size_iter_xO (p n : positive) : Pos.size (Pos.iter xO p n) = (Pos.size p + n)%positive.
Proof.
  induction n using Pos.peano_ind.
  - cbn. rewrite Pos.add_1_r. reflexivity.
  - rewrite Pos.iter_succ. cbn [Pos.size]. rewrite IHn, Pos.add_succ_r. reflexivity.
Qed.

Lemma iter_shr_1 (q m : positive) :
  Pos.iter shr_1 (Build_shr_record (Zpos (Pos.iter xO m q)) false false) q
  = Build_shr_record (Zpos m) false false.
Proof.
  revert m; induction q using Pos.peano_ind; intro m.
  - reflexivity.
  - rewrite !Pos.iter_succ, <- (Pos.iter_swap q _ xO m), IHq. reflexivity.
Qed.

Lemma pos_scale_iter (M p : positive) (k : Z) :
  0 < k -> Zpos M = Zpos p * 2 ^ k -> M = Pos.iter xO p (Z.to_pos k).
Proof.
  intros Hk H. apply Pos2Z.inj. rewrite Zpos_iter_xO, Z2Pos.id by lia. exact H.
Qed.

Lemma size_scale (M p : positive) (k : Z) :
  0 <= k -> Zpos M = Zpos p * 2 ^ k -> Zpos (Pos.size M) = Zpos (Pos.size p) + k.
Proof.
  intros Hk H. destruct (Z.eq_dec k 0) as [->|Hk'].
  - rewrite Z.mul_1_r in H. injection H as ->. lia.
  - rewrite (pos_scale_iter M p k) by lia. rewrite size_iter_xO, Pos2Z.inj_add, Z2Pos.id by lia.
    reflexivity.
Qed.

Lemma size_bound (p : positive) : Zpos p < 2 ^ 53 -> Zpos (Pos.size p) <= 53.
Proof.
  intros H. pose proof (Pos.size_le p) as Hle.
  apply Pos2Z.pos_le_pos in Hle. rewrite Pos2Z.inj_pow in Hle.
  change (Zpos p~0) with (2 * Zpos p) in Hle.
  destruct (Z.le_gt_cases (Zpos (Pos.size p)) 53) as [|Hgt]; [assumption|].
  assert (2 ^ 54 <= 2 ^ Zpos (Pos.size p)) by (apply Z.pow_le_mono_r; lia).
  assert (2 ^ 54 = 2 * 2 ^ 53) by reflexivity.
  set (t := 2 ^ Zpos (Pos.size p)) in *. lia.
Qed.



Lemma norm53_spec (p : positive) :
  Zpos (Pos.size p) <= 53 ->
  Zpos (norm53 p) = Zpos p * 2 ^ (53 - Zpos (Pos.size p))
  /\ Pos.size (norm53 p) = 53%positive.
Proof.
  intros H. unfold norm53.
  destruct (53 - Zpos (Pos.size p)) eqn:E.
  - split; [lia|]. apply Pos2Z.inj. lia.
  - split; [apply Zpos_iter_xO|]. apply Pos2Z.inj.
    rewrite size_iter_xO, Pos2Z.inj_add. lia.
  - lia.
Qed.

Lemma fexp_eq (x : Z) : -1074 <= x - 53 -> fexp 53 1024 x = x - 53.
Proof. intros H. unfold fexp, emin. lia. Qed.

Lemma shr_fexp_norm (m : positive) (e : Z) :
  Pos.size m = 53%positive -> -1074 <= e ->
  shr_fexp 53 1024 (Zpos m) e loc_Exact = (Build_shr_record (Zpos m) false false, e).
Proof.
  intros Hm He. unfold shr_fexp, Zdigits2. rewrite digits2_pos_size, Hm.
  rewrite fexp_eq by lia. replace (53 + e - 53 - e) with 0 by lia. reflexivity.
Qed.

Lemma round_aux_norm (s : bool) (mx ex : Z) (m : positive) (e : Z) :
  Pos.size m = 53%positive -> -1074 <= e <= 971 ->
  shr_fexp 53 1024 mx ex loc_Exact = (Build_shr_record (Zpos m) false false, e) ->
  binary_round_aux 53 1024 s mx ex loc_Exact = S754_finite s m e.
Proof.
  intros Hm He H. unfold binary_round_aux. rewrite H. cbn [shr_m loc_of_shr_record round_nearest_even].
  rewrite shr_fexp_norm by (assumption || lia). cbn [shr_m].
  replace (e <=? 1024 - 53) with true by (symmetry; apply Z.leb_le; lia). reflexivity.
Qed.

Lemma binary_round_exact (s : bool) (M : positive) (E : Z) (m : positive) (e : Z) :
  e = Zpos (Pos.size M) + E - 53 -> -1074 <= e <= 971 -> Pos.size m = 53%positive ->
  (E <= e -> Zpos M = Zpos m * 2 ^ (e - E)) ->
  (e < E -> Zpos m = Zpos M * 2 ^ (E - e)) ->
  binary_round 53 1024 s M E = S754_finite s m e.
Proof.
  intros He Hr Hm H1 H2. unfold binary_round.
  rewrite digits2_pos_size, fexp_eq by lia. rewrite <- He.
  unfold shl_align. destruct (e - E) as [|d|d] eqn:D.
  - apply round_aux_norm; [assumption | assumption |].
    assert (M = m) as -> by (apply Pos2Z.inj; rewrite H1 by lia; apply Z.mul_1_r).
    replace E with e by lia. apply shr_fexp_norm; [assumption | lia].
  - apply round_aux_norm; [assumption | assumption |].
    unfold shr_fexp, Zdigits2. rewrite digits2_pos_size, fexp_eq by lia. rewrite <- He, D.
    unfold shr. rewrite iter_pos_iter.
    rewrite (pos_scale_iter M m (Zpos d)); [| lia | apply H1; lia].
    cbn [Z.to_pos shr_record_of_loc]. rewrite iter_shr_1. f_equal. lia.
  - apply round_aux_norm; [assumption | assumption |].
    replace (Pos.iter xO M d) with m.
    + apply shr_fexp_norm; [assumption | lia].
    + apply (pos_scale_iter m M (Zpos d)); [lia|]. rewrite H2 by lia.
      f_equal. f_equal. lia.
Qed.

Lemma binary_round_int (s : bool) (M p : positive) (E : Z) :
  E <= 0 -> Zpos M = Zpos p * 2 ^ (- E) -> Zpos (Pos.size p) <= 53 ->
  binary_round 53 1024 s M E = S754_finite s (norm53 p) (Zpos (Pos.size p) - 53).
Proof.
  intros HE HM Hp. destruct (norm53_spec p Hp) as [Hn Hns].
  pose proof (size_scale M p (- E)) as Hs. specialize (Hs ltac:(lia) HM).
  apply binary_round_exact; [lia | lia | exact Hns | |].
  - intros Hle. rewrite HM, Hn, <- Z.mul_assoc, <- Z.pow_add_r by lia. f_equal. f_equal. lia.
  - intros Hlt. rewrite Hn, HM, <- Z.mul_assoc, <- Z.pow_add_r by lia. f_equal. f_equal. lia.
Qed.

Lemma float_of_Z_pos (p : positive) :
  Zpos p < 2 ^ 53 ->
  float_of_Z (Zpos p) = S754_finite false (norm53 p) (Zpos (Pos.size p) - 53).
Proof.
  intros H. apply binary_round_int; [lia | now rewrite Z.mul_1_r | apply size_bound; exact H].
Qed.














Lemma fabs_int (n : Z) : 0 <= n -> Z.abs n < 2 ^ 53 -> SFabs (float_of_Z n) = float_of_Z n.
Proof.
  intros H Hb. destruct n as [|p|p]; [reflexivity| |lia].
  rewrite float_of_Z_pos by lia. reflexivity.
Qed.

(** ** Whole quantities in the binary64 model *)















(** *** The float [ORDER BY lot_code] sort and lot query *)

Lemma In_f_insert_by_code (x y : f_avail_lot) (l : list f_avail_lot) :
  In y (f_insert_by_code x l) <-> y = x \/ In y l.
Proof.
  induction l as [|z l IH]; cbn.
  - intuition congruence.
  - destruct (String.leb _ _); cbn; [intuition congruence|]. rewrite IH. intuition congruence.
Qed.

Lemma In_f_sort_by_code (y : f_avail_lot) (l : list f_avail_lot) :
  In y (f_sort_by_code l) <-> In y l.
Proof.
  induction l as [|x l IH]; cbn; [tauto|].
  rewrite In_f_insert_by_code, IH. intuition congruence.
Qed.

Lemma f_get_available_lots_spec (p : platform) (s : f_db) (iid : nat) (a : f_avail_lot) :
  In a (f_get_available_lots p s iid) ->
  In (fa_lot a) (f_lots s) /\ fl_item_id (fa_lot a) = iid
  /\ fl_qc_status (fa_lot a) = APPROVED
  /\ fa_issued_qty a = f_lot_issued_qty p s (fl_id (fa_lot a))
  /\ fa_available a = fsub (fl_received_qty (fa_lot a)) (fa_issued_qty a)
  /\ fltb f0 (fa_available a) = true.
Proof.
  unfold f_get_available_lots. intros H.
  apply In_f_sort_by_code, filter_In in H as [H Hpos].
  apply in_map_iff in H as [l [<- Hl]].
  apply filter_In in Hl as [Hl Hc].
  apply andb_prop in Hc as [Hi Hq].
  apply Nat.eqb_eq in Hi. cbn in *.
  destruct (fl_qc_status l); try discriminate.
  repeat split; auto.
Qed.

Lemma f_get_available_lots_nil (p : platform) (s : f_db) (iid : nat) :
  f_get_available_lots p s iid = [] <->
  (forall l, In l (f_lots s) -> fl_item_id l = iid -> fl_qc_status l = APPROVED ->
     fltb f0 (fsub (fl_received_qty l) (f_lot_issued_qty p s (fl_id l))) = false).
Proof.
  split.
  - intros Hnil l Hin Hi Hst.
    destruct (fltb f0 (fsub (fl_received_qty l) (f_lot_issued_qty p s (fl_id l)))) eqn:E;
      [exfalso|reflexivity].
    assert (Hin' : In (mkFAvail l (f_lot_issued_qty p s (fl_id l))
                          (fsub (fl_received_qty l) (f_lot_issued_qty p s (fl_id l))))
                      (f_get_available_lots p s iid)).
    { unfold f_get_available_lots. apply In_f_sort_by_code, filter_In. split.
      - apply in_map_iff. eexists; split; [reflexivity|].
        apply filter_In. split; [exact Hin|]. rewrite Hi, Hst, Nat.eqb_refl. reflexivity.
      - exact E. }
    rewrite Hnil in Hin'. destruct Hin'.
  - intros Hall. destruct (f_get_available_lots p s iid) as [|a l] eqn:Hg; [reflexivity|].
    exfalso. assert (Ha : In a (f_get_available_lots p s iid)) by (rewrite Hg; left; reflexivity).
    apply f_get_available_lots_spec in Ha as (Hin & Hi & Hst & Hiss & Hav & Hpos).
    rewrite Hav, Hiss in Hpos. rewrite (Hall _ Hin Hi Hst) in Hpos. discriminate.
Qed.

(** *** The float FIFO loop *)




Lemma f_reserve_inventory_result (p : platform) (s : f_db) (iid : nat) (qty : float) :
  fst (f_reserve_inventory p s iid qty)
  = if negb (fltb f0 qty) then Err REQUEST_VALIDATION_ERROR else
    match f_get_item s iid with
    | None => Err ITEM_NOT_FOUND
    | Some _ =>
        if fltb (f_available (f_calculate_stock p s iid)) qty then Err INSUFFICIENT_STOCK else
        match f_get_available_lots p s iid with
        | [] => Err NO_QC_APPROVED_LOT
        | _ :: _ => Ok (f_next_id s)
        end
    end.
Proof.
  unfold f_reserve_inventory.
  destruct (negb _); [reflexivity|]. destruct (f_get_item s iid); [|reflexivity].
  destruct (fltb _ _); [reflexivity|]. destruct (f_get_available_lots p s iid); reflexivity.
Qed.

(** *** Whole quantities: the float run replays the integer run *)







































(** ** The claims on quantities in the binary64 model *)







(** C4 (as stated, refuted): reserve does not require the APPROVED lots to
    cover the request: with 50 units approved and 100 in quarantine,
    reserving 120 succeeds, whichever summation SQLite and Python use
    (each of the four [platforms]). *)
Lemma C4_counterexample :
  Forall (fun p =>
    fst (f_reserve_inventory p (f_run p f_init_db f_scenario_mixed_qc) 0 (float_of_Z 120))
    = Ok 5%nat
    /\ py_sum (python_sum p)
         (map fa_available (f_get_available_lots p (f_run p f_init_db f_scenario_mixed_qc) 0))
       = float_of_Z 50) platforms.
Proof. repeat constructor; vm_compute; reflexivity. Qed.

(** C4 (amended): a reserve succeeds exactly when [qty > 0], the item
    exists, [available < qty] is false for the item's available stock
    ([on_hand - reserved], quarantined stock included) and at least one
    APPROVED lot of the item has [received_qty - issued_qty > 0]; it fails
    with INSUFFICIENT_STOCK when [available < qty], and otherwise with
    NO_QC_APPROVED_LOT when no APPROVED lot has stock.  The approved lots
    need not cover the quantity. *)
Theorem C4_reserve_gate (p : platform) (s : f_db) (iid : nat) (qty : float) :
  ((exists rid, fst (f_reserve_inventory p s iid qty) = Ok rid) <->
     fltb f0 qty = true /\ f_get_item s iid <> None
     /\ fltb (f_available (f_calculate_stock p s iid)) qty = false
     /\ exists l, In l (f_lots s) /\ fl_item_id l = iid /\ fl_qc_status l = APPROVED
                  /\ fltb f0 (fsub (fl_received_qty l) (f_lot_issued_qty p s (fl_id l))) = true)
  /\ (fltb f0 qty = true -> f_get_item s iid <> None ->
      fltb (f_available (f_calculate_stock p s iid)) qty = true ->
      fst (f_reserve_inventory p s iid qty) = Err INSUFFICIENT_STOCK)
  /\ (fltb f0 qty = true -> f_get_item s iid <> None ->
      fltb (f_available (f_calculate_stock p s iid)) qty = false ->
      (forall l, In l (f_lots s) -> fl_item_id l = iid -> fl_qc_status l = APPROVED ->
         fltb f0 (fsub (fl_received_qty l) (f_lot_issued_qty p s (fl_id l))) = false) ->
      fst (f_reserve_inventory p s iid qty) = Err NO_QC_APPROVED_LOT).
Proof.
  rewrite !f_reserve_inventory_result.
  split; [|split].
  - split.
    + intros [rid H].
      destruct (fltb f0 qty) eqn:E; [|discriminate].
      destruct (f_get_item s iid) as [it|] eqn:Hi; [|discriminate].
      destruct (fltb (f_available (f_calculate_stock p s iid)) qty) eqn:E2; [discriminate|].
      destruct (f_get_available_lots p s iid) as [|a l] eqn:Hg; [discriminate|].
      split; [reflexivity|]. split; [discriminate|]. split; [reflexivity|].
      assert (Ha : In a (f_get_available_lots p s iid)) by (rewrite Hg; left; reflexivity).
      apply f_get_available_lots_spec in Ha as (Hin & Hli & Hst & Hiss & Hav & Hpos).
      exists (fa_lot a). rewrite Hav, Hiss in Hpos. auto.
    + intros (Hq & Hi & Hav & l & Hin & Hli & Hst & Hpos).
      rewrite Hq. cbn [negb].
      destruct (f_get_item s iid); [|congruence].
      rewrite Hav.
      destruct (f_get_available_lots p s iid) eqn:Hg; [|eexists; reflexivity].
      rewrite f_get_available_lots_nil in Hg. rewrite (Hg l Hin Hli Hst) in Hpos.
      discriminate.
  - intros Hq Hi Hav. rewrite Hq. cbn [negb].
    destruct (f_get_item s iid); [|congruence]. rewrite Hav. reflexivity.
  - intros Hq Hi Hav Hall. rewrite Hq. cbn [negb].
    destruct (f_get_item s iid); [|congruence]. rewrite Hav.
    apply f_get_available_lots_nil in Hall. rewrite Hall. reflexivity.
Qed.

Lemma C4_witness :
  exists rid, fst (f_reserve_inventory (mkPlatform Compensated Compensated)
                     (f_run (mkPlatform Compensated Compensated) f_init_db f_scenario_mixed_qc)
                     0 (float_of_Z 120)) = Ok rid.
Proof.
  apply (proj2 (proj1 (C4_reserve_gate (mkPlatform Compensated Compensated)
                         (f_run (mkPlatform Compensated Compensated) f_init_db f_scenario_mixed_qc)
                         0 (float_of_Z 120)))).
  split; [vm_compute; reflexivity|]. split; [vm_compute; discriminate|].
  split; [vm_compute; reflexivity|].
  exists (mkFLot 1 0 "LOT-1" (float_of_Z 50) APPROVED).
  split; [vm_compute; left; reflexivity|].
  split; [reflexivity|]. split; [reflexivity|].
  vm_compute. reflexivity.
Defined.
